(** * The validation-criteria form of the lesson admin page

    A shallow embedding of [app/template/admin_lesson_script.js]: the three
    handlers the script installs on [window]

      - [handleValidationChange]   (the field renderer),
      - [buildValidationCriteria]  (form -> criteria object),
      - [populateValidationFields] (criteria object -> form),

    together with the part of the JavaScript runtime they call: values with
    their truthiness, [typeof], property read and [ToString]; [JSON.parse]
    and [JSON.stringify]; and the handful of DOM cells the script touches.

    Modelling decisions, all on the side of the runtime (the script itself is
    transcribed statement by statement further down):

      - a JavaScript string is its sequence of UTF-16 code units, [list N];
        string literals of the script are injected with [lit];
      - a number is carried by the decimal digits and exponent that
        [Number::toString] prints for it (the triple called n, k, s in
        ECMA-262). Rounding to binary64 is not modelled: a number token
        keeps its exact decimal value where the runtime answers the nearest
        double, infinity or zero, so what is stated below about the value of
        a parsed number is stated relative to [JSON.parse]; the two zeros
        are identified, as [===] identifies them;
      - [ToString] is given for the values whose conversion completes (see
        [converts]); the handlers are described as they run to completion;
      - the type selector is a cell: reading [value] gives the string last
        assigned to it (the markup that declares it is not part of the
        script); a form control keeps the string assigned to its [value] as
        its kind of element does: a text input drops line breaks, a text
        area shows a carriage return as a line feed; the label and div
        wrappers of the templates carry neither an id nor a value and are
        left out. *)

From Stdlib Require Import String Ascii List ZArith NArith Bool Lia.
From Stdlib Require Import DecimalPos DecimalN.
Import ListNotations.

Local Open Scope N_scope.
Local Open Scope list_scope.

(* ------------------------------------------------------------------ *)
(** ** Strings *)

Definition jsstring := list N.

Definition lit (s : string) : jsstring :=
  map N_of_ascii (list_ascii_of_string s).

Fixpoint jseqb (a b : jsstring) : bool :=
  match a, b with
  | [], [] => true
  | x :: a', y :: b' => (x =? y) && jseqb a' b'
  | _, _ => false
  end.

Fixpoint join (sep : jsstring) (parts : list jsstring) : jsstring :=
  match parts with
  | [] => []
  | [p] => p
  | p :: rest => p ++ sep ++ join sep rest
  end.

Definition is_digit (c : N) : bool := (48 <=? c) && (c <=? 57).

(** "Strip newlines": the string without its line feeds (10) and carriage
    returns (13). *)
Definition strip_newlines (s : jsstring) : jsstring :=
  filter (fun c => negb ((c =? 10) || (c =? 13))) s.

(** "Normalize newlines": every carriage return, with the line feed that
    follows it if there is one, becomes a single line feed. *)
Fixpoint normalize_newlines (s : jsstring) : jsstring :=
  match s with
  | [] => []
  | c :: r =>
      if c =? 13 then
        10 :: match r with
              | d :: r' => if d =? 10 then normalize_newlines r' else normalize_newlines r
              | [] => []
              end
      else c :: normalize_newlines r
  end.

(** Decimal text of a natural number, through the standard library's
    [Decimal.uint]. *)
Fixpoint uint_units (u : Decimal.uint) : jsstring :=
  match u with
  | Decimal.Nil => []
  | Decimal.D0 u => 48 :: uint_units u
  | Decimal.D1 u => 49 :: uint_units u
  | Decimal.D2 u => 50 :: uint_units u
  | Decimal.D3 u => 51 :: uint_units u
  | Decimal.D4 u => 52 :: uint_units u
  | Decimal.D5 u => 53 :: uint_units u
  | Decimal.D6 u => 54 :: uint_units u
  | Decimal.D7 u => 55 :: uint_units u
  | Decimal.D8 u => 56 :: uint_units u
  | Decimal.D9 u => 57 :: uint_units u
  end.

(** The digits (values 0..9) of a decimal numeral, read back. *)
Fixpoint digits_uint (ds : list N) : Decimal.uint :=
  match ds with
  | [] => Decimal.Nil
  | d :: ds' =>
      let u := digits_uint ds' in
      match d with
      | 0 => Decimal.D0 u | 1 => Decimal.D1 u | 2 => Decimal.D2 u
      | 3 => Decimal.D3 u | 4 => Decimal.D4 u | 5 => Decimal.D5 u
      | 6 => Decimal.D6 u | 7 => Decimal.D7 u | 8 => Decimal.D8 u
      | _ => Decimal.D9 u
      end
  end.

Definition decimal_text (m : N) : jsstring := uint_units (N.to_uint m).
Definition digits_value (ds : list N) : N := N.of_uint (digits_uint ds).

(* ------------------------------------------------------------------ *)
(** ** Numbers and values *)

(** [Dec neg s n] is the number [± 0.s1 s2 ... sk * 10^n]: [s] holds the k
    significant digits and [n] the position of the decimal point, exactly
    the data [Number::toString] formats. The numbers of the runtime are the
    binary64 ones among these (with the infinities, which JSON text cannot
    denote and no criteria of the wire format holds); a decimal that is not
    one of them stands here for itself, not for the double nearest to it. *)
Inductive number :=
| Zero
| Dec (neg : bool) (s : list N) (n : Z).

#[local] Unset Elimination Schemes.
Inductive value :=
| JUndefined
| JNull
| JBool (b : bool)
| JNum (x : number)
| JStr (s : jsstring)
| JArr (elems : list value)
| JObj (props : list (jsstring * value)).
#[local] Set Elimination Schemes.

(** Induction on a value, with the elements of an array and the
    properties of an object as induction hypotheses. *)
Section value_induction.
Variable P : value -> Prop.
Hypothesis P_undefined : P JUndefined.
Hypothesis P_null : P JNull.
Hypothesis P_bool : forall b, P (JBool b).
Hypothesis P_num : forall x, P (JNum x).
Hypothesis P_str : forall s, P (JStr s).
Hypothesis P_arr : forall l, Forall P l -> P (JArr l).
Hypothesis P_obj : forall ps, Forall (fun kv => P (snd kv)) ps -> P (JObj ps).

Fixpoint value_induction (v : value) : P v :=
  match v with
  | JUndefined => P_undefined
  | JNull => P_null
  | JBool b => P_bool b
  | JNum x => P_num x
  | JStr s => P_str s
  | JArr l =>
      P_arr l
        ((fix all (l : list value) : Forall P l :=
            match l with
            | [] => Forall_nil P
            | x :: l' => Forall_cons x (value_induction x) (all l')
            end) l)
  | JObj ps =>
      P_obj ps
        ((fix all (ps : list (jsstring * value)) : Forall (fun kv => P (snd kv)) ps :=
            match ps with
            | [] => Forall_nil _
            | kv :: ps' => Forall_cons kv (value_induction (snd kv)) (all ps')
            end) ps)
  end.
End value_induction.

Definition digits_text (s : list N) : jsstring := map (fun d => 48 + d) s.
Definition zeros (k : nat) : jsstring := repeat 48 k.

(** ECMA-262 [Number::toString] in radix 10, steps 5 to 10: the digits [s]
    with the decimal point after position [n], in fixed notation when
    [-5 <= n <= 21] and in exponent notation otherwise. *)
Definition digits_notation (s : list N) (n : Z) : jsstring :=
  let k := Z.of_nat (length s) in
  if ((-5 <=? n) && (n <=? 21))%Z then
    if (k <=? n)%Z then digits_text s ++ zeros (Z.to_nat (n - k))
    else if (0 <? n)%Z then
      digits_text (firstn (Z.to_nat n) s) ++ lit "." ++
      digits_text (skipn (Z.to_nat n) s)
    else lit "0." ++ zeros (Z.to_nat (- n)) ++ digits_text s
  else
    let e := (n - 1)%Z in
    let exponent :=
      lit "e" ++ (if (e <? 0)%Z then lit "-" else lit "+") ++
      decimal_text (Z.abs_N e) in
    match s with
    | [] => exponent
    | [d] => digits_text [d] ++ exponent
    | d :: r => digits_text [d] ++ lit "." ++ digits_text r ++ exponent
    end.

Definition Number_toString (x : number) : jsstring :=
  match x with
  | Zero => lit "0"
  | Dec neg s n => (if neg then lit "-" else []) ++ digits_notation s n
  end.

(** Truthiness ([ToBoolean]). *)
Definition truthy (v : value) : bool :=
  match v with
  | JUndefined | JNull => false
  | JBool b => b
  | JNum Zero => false
  | JNum _ => true
  | JStr [] => false
  | JStr _ => true
  | JArr _ | JObj _ => true
  end.

(** [a || b]. *)
Definition or_else (a b : value) : value := if truthy a then a else b.

(** [typeof v === 'string']. *)
Definition typeof_string (v : value) : bool :=
  match v with JStr _ => true | _ => false end.

Fixpoint lookup_prop (k : jsstring) (ps : list (jsstring * value)) : option value :=
  match ps with
  | [] => None
  | (k', v) :: ps' => if jseqb k k' then Some v else lookup_prop k ps'
  end.

(** [o.k] for the four property names the script reads ([type],
    [function_name], [args], [expected]): none of them is defined on a
    built-in prototype, so the read yields an own property of an object and
    [undefined] on everything else. *)
Definition get (o : value) (k : string) : value :=
  match o with
  | JObj ps => match lookup_prop (lit k) ps with Some v => v | None => JUndefined end
  | _ => JUndefined
  end.

(** [ToString], as applied when a value is assigned to a DOMString attribute
    or joined into an array's text. An object is converted by the
    [toString] it inherits, which answers [[object Object]]; an object with
    an own property [toString] (a value, never a function, in data that
    came through JSON) has no primitive form and the conversion throws a
    [TypeError]: [ToString] is the result on the values that [converts]
    accepts. *)
Fixpoint ToString (v : value) : jsstring :=
  match v with
  | JUndefined => lit "undefined"
  | JNull => lit "null"
  | JBool true => lit "true"
  | JBool false => lit "false"
  | JNum x => Number_toString x
  | JStr s => s
  | JArr l =>
      join (lit ",")
        (map (fun e => match e with
                       | JUndefined | JNull => []
                       | _ => ToString e
                       end) l)
  | JObj _ => lit "[object Object]"
  end.

(** [converts v]: the conversion of [v] to a string completes. *)
Fixpoint converts (v : value) : bool :=
  match v with
  | JArr l => forallb converts l
  | JObj ps =>
      match lookup_prop (lit "toString") ps with
      | Some _ => false
      | None => true
      end
  | _ => true
  end.

(* ------------------------------------------------------------------ *)
(** ** The JSON object of the runtime *)

Module JSON.

(** *** JSON.stringify (one argument: no replacer, no indentation) *)

Definition hex_unit (d : N) : N := if d <? 10 then 48 + d else 87 + d.

(** [UnicodeEscape]: a backslash, [u] and four lower-case hex digits. *)
Definition UnicodeEscape (c : N) : jsstring :=
  [92; 117; hex_unit (c / 4096); hex_unit ((c / 256) mod 16);
   hex_unit ((c / 16) mod 16); hex_unit (c mod 16)].

Definition is_high_surrogate (c : N) : bool := (55296 <=? c) && (c <=? 56319).
Definition is_low_surrogate (c : N) : bool := (56320 <=? c) && (c <=? 57343).

(** One code unit that is not a surrogate, as [QuoteJSONString] writes it. *)
Definition quote_unit (c : N) : jsstring :=
  if c =? 8 then [92; 98]
  else if c =? 9 then [92; 116]
  else if c =? 10 then [92; 110]
  else if c =? 12 then [92; 102]
  else if c =? 13 then [92; 114]
  else if c =? 34 then [92; 34]
  else if c =? 92 then [92; 92]
  else if c <? 32 then UnicodeEscape c
  else [c].

(** The string is read by code points: a high surrogate followed by a low
    one is a pair and is copied; any other surrogate is escaped. *)
Fixpoint quote_units (s : jsstring) : jsstring :=
  match s with
  | [] => []
  | c :: r =>
      if is_high_surrogate c then
        match r with
        | d :: r' =>
            if is_low_surrogate d then c :: d :: quote_units r'
            else UnicodeEscape c ++ quote_units r
        | [] => UnicodeEscape c
        end
      else if is_low_surrogate c then UnicodeEscape c ++ quote_units r
      else quote_unit c ++ quote_units r
  end.

Definition QuoteJSONString (s : jsstring) : jsstring :=
  [34] ++ quote_units s ++ [34].

(** [SerializeJSONProperty]: [None] stands for the result [undefined]. An
    [undefined] element of an array is written [null], an [undefined]
    property of an object is left out. *)
Fixpoint SerializeJSONProperty (v : value) : option jsstring :=
  match v with
  | JUndefined => None
  | JNull => Some (lit "null")
  | JBool true => Some (lit "true")
  | JBool false => Some (lit "false")
  | JNum x => Some (Number_toString x)
  | JStr s => Some (QuoteJSONString s)
  | JArr l =>
      Some (lit "[" ++
            join (lit ",")
              (map (fun e => match SerializeJSONProperty e with
                             | Some t => t
                             | None => lit "null"
                             end) l) ++
            lit "]")
  | JObj ps =>
      Some (lit "{" ++
            join (lit ",")
              (flat_map (fun kv => match SerializeJSONProperty (snd kv) with
                                   | Some t => [QuoteJSONString (fst kv) ++ lit ":" ++ t]
                                   | None => []
                                   end) ps) ++
            lit "}")
  end.

Definition stringify (v : value) : value :=
  match SerializeJSONProperty v with
  | Some t => JStr t
  | None => JUndefined
  end.

(** *** JSON.parse (one argument: no reviver) *)

Inductive result (A : Type) :=
| Ok (a : A) (rest : jsstring)
| SyntaxError
| OutOfFuel.
Arguments Ok {A} a rest.
Arguments SyntaxError {A}.
Arguments OutOfFuel {A}.

Definition bind {A B} (r : result A) (k : A -> jsstring -> result B) : result B :=
  match r with
  | Ok a rest => k a rest
  | SyntaxError => SyntaxError
  | OutOfFuel => OutOfFuel
  end.

Definition is_ws (c : N) : bool :=
  (c =? 9) || (c =? 10) || (c =? 13) || (c =? 32).

Fixpoint skip_ws (s : jsstring) : jsstring :=
  match s with
  | c :: r => if is_ws c then skip_ws r else s
  | [] => []
  end.

(** [strip_prefix p s] is [Some r] when [s = p ++ r]. *)
Fixpoint strip_prefix (p s : jsstring) : option jsstring :=
  match p, s with
  | [], _ => Some s
  | x :: p', y :: s' => if x =? y then strip_prefix p' s' else None
  | _ :: _, [] => None
  end.

Definition hex_value (c : N) : option N :=
  if is_digit c then Some (c - 48)
  else if (97 <=? c) && (c <=? 102) then Some (c - 87)
  else if (65 <=? c) && (c <=? 70) then Some (c - 55)
  else None.

Definition hex4_value (h1 h2 h3 h4 : N) : option N :=
  match hex_value h1, hex_value h2, hex_value h3, hex_value h4 with
  | Some a, Some b, Some c, Some d => Some (4096 * a + 256 * b + 16 * c + d)
  | _, _, _, _ => None
  end.

(** The character after a backslash, other than [u]. *)
Definition escape_unit (e : N) : option N :=
  if e =? 34 then Some 34
  else if e =? 92 then Some 92
  else if e =? 47 then Some 47
  else if e =? 98 then Some 8
  else if e =? 102 then Some 12
  else if e =? 110 then Some 10
  else if e =? 114 then Some 13
  else if e =? 116 then Some 9
  else None.

Definition prepend (u : N) (r : option (jsstring * jsstring)) :
  option (jsstring * jsstring) :=
  match r with
  | Some (t, rest) => Some (u :: t, rest)
  | None => None
  end.

(** The characters of a string literal after its opening quote, up to and
    including the closing quote. *)
Fixpoint parse_chars (s : jsstring) : option (jsstring * jsstring) :=
  match s with
  | [] => None
  | c :: r =>
      if c =? 34 then Some ([], r)
      else if c =? 92 then
        match r with
        | [] => None
        | e :: r1 =>
            if e =? 117 then
              match r1 with
              | h1 :: h2 :: h3 :: h4 :: r2 =>
                  match hex4_value h1 h2 h3 h4 with
                  | Some u => prepend u (parse_chars r2)
                  | None => None
                  end
              | _ => None
              end
            else
              match escape_unit e with
              | Some u => prepend u (parse_chars r1)
              | None => None
              end
        end
      else if c <? 32 then None
      else prepend c (parse_chars r)
  end.

(** The longest run of decimal digits at the head of [s], as digit values. *)
Fixpoint span_digits (s : jsstring) : list N * jsstring :=
  match s with
  | c :: r =>
      if is_digit c then
        let (ds, rest) := span_digits r in (c - 48 :: ds, rest)
      else ([], s)
  | [] => ([], [])
  end.

Fixpoint strip_zeros (ds : list N) (n : Z) : list N * Z :=
  match ds with
  | d :: ds' => if d =? 0 then strip_zeros ds' (n - 1)%Z else (ds, n)
  | [] => ([], n)
  end.

Definition strip_trailing_zeros (ds : list N) : list N :=
  rev (fst (strip_zeros (rev ds) 0%Z)).

(** The number denoted by the digits [ds] with the decimal point after
    position [n]: [0.ds * 10^n]. *)
Definition number_of_digits (neg : bool) (ds : list N) (n : Z) : number :=
  let (ds1, n1) := strip_zeros ds n in
  match strip_trailing_zeros ds1 with
  | [] => Zero
  | s => Dec neg s n1
  end.

Definition parse_exponent (s : jsstring) : option (Z * jsstring) :=
  match s with
  | c :: r =>
      if (c =? 101) || (c =? 69) then
        let (neg, r1) :=
          match r with
          | sg :: r' =>
              if sg =? 45 then (true, r')
              else if sg =? 43 then (false, r')
              else (false, r)
          | [] => (false, r)
          end in
        match span_digits r1 with
        | ([], _) => None
        | (es, rest) =>
            let e := Z.of_N (digits_value es) in
            Some (if neg then (- e)%Z else e, rest)
        end
      else Some (0%Z, s)
  | [] => Some (0%Z, s)
  end.

Definition parse_fraction (s : jsstring) : option (list N * jsstring) :=
  match s with
  | c :: r =>
      if c =? 46 then
        match span_digits r with
        | ([], _) => None
        | (fs, rest) => Some (fs, rest)
        end
      else Some ([], s)
  | [] => Some ([], s)
  end.

Definition parse_int_part (s : jsstring) : option (list N * jsstring) :=
  match s with
  | c :: r =>
      if c =? 48 then Some ([0], r)
      else if is_digit c then Some (span_digits s)
      else None
  | [] => None
  end.

(** A JSON number token: [-? int frac? exp?]. *)
Definition parse_unsigned (neg : bool) (s : jsstring) : option (number * jsstring) :=
  match parse_int_part s with
  | None => None
  | Some (ip, s2) =>
      match parse_fraction s2 with
      | None => None
      | Some (fs, s3) =>
          match parse_exponent s3 with
          | None => None
          | Some (e, s4) =>
              Some (number_of_digits neg (ip ++ fs) (Z.of_nat (length ip) + e), s4)
          end
      end
  end.

Definition parse_number (s : jsstring) : option (number * jsstring) :=
  match s with
  | c :: r => if c =? 45 then parse_unsigned true r else parse_unsigned false s
  | [] => None
  end.

(** Property keys that are array indices come first in an object, in
    ascending order; the other keys follow in order of creation. *)
Definition array_index (k : jsstring) : option N :=
  match k with
  | [] => None
  | c :: r =>
      if forallb is_digit k && (negb (c =? 48) || match r with [] => true | _ => false end)
      then
        let i := digits_value (map (fun c => c - 48) k) in
        if i <? 4294967295 then Some i else None
      else None
  end.

(** [key_before k k']: a new property [k] is placed in front of an existing
    property [k']. *)
Definition key_before (k k' : jsstring) : bool :=
  match array_index k, array_index k' with
  | Some i, Some j => i <? j
  | Some _, None => true
  | None, _ => false
  end.

Fixpoint replace_prop (k : jsstring) (v : value) (ps : list (jsstring * value)) :=
  match ps with
  | [] => []
  | (k', v') :: ps' =>
      if jseqb k k' then (k', v) :: ps' else (k', v') :: replace_prop k v ps'
  end.

Fixpoint insert_prop (k : jsstring) (v : value) (ps : list (jsstring * value)) :=
  match ps with
  | [] => [(k, v)]
  | (k', v') :: ps' =>
      if key_before k k' then (k, v) :: ps else (k', v') :: insert_prop k v ps'
  end.

(** [CreateDataProperty] on an ordinary object. *)
Definition CreateDataProperty (ps : list (jsstring * value)) (kv : jsstring * value) :=
  match lookup_prop (fst kv) ps with
  | Some _ => replace_prop (fst kv) (snd kv) ps
  | None => insert_prop (fst kv) (snd kv) ps
  end.

Definition object_of_members (ms : list (jsstring * value)) : value :=
  JObj (fold_left CreateDataProperty ms []).

Fixpoint parse_value (fuel : nat) (s : jsstring) : result value :=
  match fuel with
  | O => OutOfFuel
  | S fuel' =>
      match skip_ws s with
      | [] => SyntaxError
      | c :: r =>
          if c =? 91 then
            match skip_ws r with
            | c' :: r' =>
                if c' =? 93 then Ok (JArr []) r'
                else bind (parse_elements fuel' r) (fun vs rest => Ok (JArr vs) rest)
            | [] => SyntaxError
            end
          else if c =? 123 then
            match skip_ws r with
            | c' :: r' =>
                if c' =? 125 then Ok (JObj []) r'
                else bind (parse_members fuel' r)
                          (fun ms rest => Ok (object_of_members ms) rest)
            | [] => SyntaxError
            end
          else if c =? 34 then
            match parse_chars r with
            | Some (t, rest) => Ok (JStr t) rest
            | None => SyntaxError
            end
          else if c =? 110 then
            match strip_prefix (lit "ull") r with
            | Some rest => Ok JNull rest
            | None => SyntaxError
            end
          else if c =? 116 then
            match strip_prefix (lit "rue") r with
            | Some rest => Ok (JBool true) rest
            | None => SyntaxError
            end
          else if c =? 102 then
            match strip_prefix (lit "alse") r with
            | Some rest => Ok (JBool false) rest
            | None => SyntaxError
            end
          else
            match parse_number (c :: r) with
            | Some (x, rest) => Ok (JNum x) rest
            | None => SyntaxError
            end
      end
  end

with parse_elements (fuel : nat) (s : jsstring) : result (list value) :=
  match fuel with
  | O => OutOfFuel
  | S fuel' =>
      bind (parse_value fuel' s) (fun v r =>
        match skip_ws r with
        | c :: r' =>
            if c =? 44 then
              bind (parse_elements fuel' r') (fun vs rest => Ok (v :: vs) rest)
            else if c =? 93 then Ok [v] r'
            else SyntaxError
        | [] => SyntaxError
        end)
  end

with parse_members (fuel : nat) (s : jsstring) : result (list (jsstring * value)) :=
  match fuel with
  | O => OutOfFuel
  | S fuel' =>
      match skip_ws s with
      | c :: r =>
          if c =? 34 then
            match parse_chars r with
            | Some (k, r1) =>
                match skip_ws r1 with
                | c1 :: r2 =>
                    if c1 =? 58 then
                      bind (parse_value fuel' r2) (fun v r3 =>
                        match skip_ws r3 with
                        | c3 :: r4 =>
                            if c3 =? 44 then
                              bind (parse_members fuel' r4)
                                   (fun ms rest => Ok ((k, v) :: ms) rest)
                            else if c3 =? 125 then Ok [(k, v)] r4
                            else SyntaxError
                        | [] => SyntaxError
                        end)
                    else SyntaxError
                | [] => SyntaxError
                end
            | None => SyntaxError
            end
          else SyntaxError
      | [] => SyntaxError
      end
  end.

(** [JSON.parse text]: [None] stands for the thrown [SyntaxError]. The fuel
    is enough for every text (lemma [parse_value_fuel]). *)
Definition parse (text : jsstring) : option value :=
  match parse_value (S (2 * length text)) text with
  | Ok v r => match skip_ws r with [] => Some v | _ :: _ => None end
  | SyntaxError => None
  | OutOfFuel => None
  end.

End JSON.

(* ------------------------------------------------------------------ *)
(** ** The page: the type selector and the fields container *)

Inductive tag := textarea | input_text.

(** A form control of the container: its tag, its [id], and its [value] as
    the script reads it. *)
Record control := {
  ctl_tag : tag;
  ctl_id : string;
  ctl_value : jsstring
}.

(** [validationTypeSelector] is the current [value] of [#validationType];
    [validationFieldsContainer] lists, in document order, the controls
    inside [#validation-fields]. No other element of the page carries one
    of the ids the script looks up. *)
Record page := {
  validationTypeSelector : jsstring;
  validationFieldsContainer : list control
}.

(** What a handler lets the operator see. *)
Inductive effect :=
| console_error (message : string)
| alert (message : string).

Definition set_selector (v : jsstring) (p : page) : page :=
  {| validationTypeSelector := v;
     validationFieldsContainer := validationFieldsContainer p |}.

(** [validationFieldsContainer.innerHTML = ...] *)
Definition set_innerHTML (fields : list control) (p : page) : page :=
  {| validationTypeSelector := validationTypeSelector p;
     validationFieldsContainer := fields |}.

(** [document.getElementById(id)]: the first element with that id. *)
Definition getElementById (id : string) (p : page) : option control :=
  find (fun c => String.eqb (ctl_id c) id) (validationFieldsContainer p).

(** [document.getElementById(id)?.value] *)
Definition optional_value (id : string) (p : page) : value :=
  match getElementById id p with
  | Some c => JStr (ctl_value c)
  | None => JUndefined
  end.

(** Conversion of a value assigned to the [value] attribute of a control,
    declared [[LegacyNullToEmptyString] DOMString]. *)
Definition DOMString_of (v : value) : jsstring :=
  match v with
  | JNull => []
  | _ => ToString v
  end.

(** What a control of the given kind holds after a string is assigned to
    its [value]: a text input runs the value sanitization of its type
    (strip newlines); the value read from a text area has its newlines
    normalized. *)
Definition kept_value (t : tag) (s : jsstring) : jsstring :=
  match t with
  | input_text => strip_newlines s
  | textarea => normalize_newlines s
  end.

Fixpoint assign_first (id : string) (s : jsstring) (cs : list control) : list control :=
  match cs with
  | [] => []
  | c :: cs' =>
      if String.eqb (ctl_id c) id
      then {| ctl_tag := ctl_tag c; ctl_id := ctl_id c;
              ctl_value := kept_value (ctl_tag c) s |} :: cs'
      else c :: assign_first id s cs'
  end.

(** [document.getElementById(id).value = v] *)
Definition set_value (id : string) (v : value) (p : page) : page :=
  set_innerHTML (assign_first id (DOMString_of v) (validationFieldsContainer p)) p.

(** [criteria.k = v] on an object. *)
Definition set (o : value) (k : string) (v : value) : value :=
  match o with
  | JObj ps => JObj (JSON.CreateDataProperty ps (lit k, v))
  | _ => o
  end.

(** [v === 'literal'] *)
Definition is_literal (v : value) (s : string) : bool :=
  match v with
  | JStr t => jseqb t (lit s)
  | _ => false
  end.

(** The controls the two templates create, each with an empty value. *)
Module fieldTemplates.

Definition expected : list control :=
  [ {| ctl_tag := textarea; ctl_id := "expectedOutput"; ctl_value := [] |} ].

Definition function_call : list control :=
  [ {| ctl_tag := input_text; ctl_id := "functionName"; ctl_value := [] |};
    {| ctl_tag := input_text; ctl_id := "functionArgs"; ctl_value := [] |};
    {| ctl_tag := input_text; ctl_id := "expectedOutput"; ctl_value := [] |} ].

End fieldTemplates.

(* ------------------------------------------------------------------ *)
(** ** The three handlers *)

Definition handleValidationChange (p : page) : page :=
  let selectedType := validationTypeSelector p in
  let p := set_innerHTML [] p in
  if jseqb selectedType (lit "exact_match") || jseqb selectedType (lit "contains")
  then set_innerHTML fieldTemplates.expected p
  else if jseqb selectedType (lit "function_call")
  then set_innerHTML fieldTemplates.function_call p
  else p.

Definition invalid_arguments : list effect :=
  [ console_error "Invalid JSON for function arguments:";
    alert "The 'Arguments' field contains invalid JSON. Please correct it." ].

Definition buildValidationCriteria (p : page) : list effect * value :=
  let type := JStr (validationTypeSelector p) in
  if is_literal type "none" || negb (truthy type) then ([], JNull)
  else
    let criteria := JObj [(lit "type", type)] in
    if is_literal type "exact_match" || is_literal type "contains" then
      ([], set criteria "expected"
             (or_else (optional_value "expectedOutput" p) (JStr [])))
    else if is_literal type "function_call" then
      let criteria :=
        set criteria "function_name"
          (or_else (optional_value "functionName" p) (JStr [])) in
      let argsStr := or_else (optional_value "functionArgs" p) (JStr (lit "[]")) in
      let (effects, criteria) :=
        match JSON.parse (ToString argsStr) with
        | Some args => ([], set criteria "args" args)
        | None => (invalid_arguments, set criteria "args" (JArr []))
        end in
      let expectedVal := or_else (optional_value "expectedOutput" p) (JStr []) in
      let criteria :=
        match JSON.parse (ToString expectedVal) with
        | Some expected => set criteria "expected" expected
        | None => set criteria "expected" expectedVal
        end in
      (effects, criteria)
    else ([], criteria).

Definition populateValidationFields (criteria : value) (p : page) : page :=
  let p :=
    if negb (truthy criteria) || negb (truthy (get criteria "type"))
    then set_selector (lit "none") p
    else set_selector (ToString (get criteria "type")) p in
  let p := handleValidationChange p in
  if truthy criteria then
    if is_literal (get criteria "type") "exact_match"
       || is_literal (get criteria "type") "contains" then
      match getElementById "expectedOutput" p with
      | Some _ =>
          set_value "expectedOutput" (or_else (get criteria "expected") (JStr [])) p
      | None => p
      end
    else if is_literal (get criteria "type") "function_call" then
      let p :=
        match getElementById "functionName" p with
        | Some _ =>
            set_value "functionName"
              (or_else (get criteria "function_name") (JStr [])) p
        | None => p
        end in
      let p :=
        match getElementById "functionArgs" p with
        | Some _ =>
            set_value "functionArgs"
              (JSON.stringify (or_else (get criteria "args") (JArr []))) p
        | None => p
        end in
      match getElementById "expectedOutput" p with
      | Some _ =>
          let expected := get criteria "expected" in
          let expected :=
            if negb (typeof_string expected) then JSON.stringify expected
            else expected in
          set_value "expectedOutput" expected p
      | None => p
      end
    else p
  else p.

(* ------------------------------------------------------------------ *)
(** ** Vocabulary of the specification *)

(** A number in the form [Number::toString] assumes: at least one digit,
    every digit below ten, no leading and no trailing zero digit. *)
Definition canonical_number (x : number) : bool :=
  match x with
  | Zero => true
  | Dec _ s _ =>
      forallb (fun d => d <? 10) s && negb (hd 0 s =? 0) && negb (last s 0 =? 0)
  end.

(** The own keys of an object as the runtime orders them: no key twice, and
    no key that a later key would have been placed in front of. *)
Fixpoint canonical_keys (ks : list jsstring) : bool :=
  match ks with
  | [] => true
  | k :: ks' =>
      forallb (fun k' => negb (jseqb k' k) && negb (JSON.key_before k' k)) ks'
      && canonical_keys ks'
  end.

(** The JSON values, as the wire format of a criteria object carries them:
    no [undefined], numbers in the form they are printed in, the keys of
    every object in the runtime's order. *)
Fixpoint is_json (v : value) : bool :=
  match v with
  | JUndefined => false
  | JNull | JBool _ | JStr _ => true
  | JNum x => canonical_number x
  | JArr l => forallb is_json l
  | JObj ps =>
      canonical_keys (map fst ps) && forallb (fun kv => is_json (snd kv)) ps
  end.

(** The text of a control, empty when the control is absent. *)
Definition field_text (id : string) (p : page) : jsstring :=
  match getElementById id p with
  | Some c => ctl_value c
  | None => []
  end.

(** The text [JSON.stringify] writes for an element of an array or for the
    value of a property. *)
Definition text_of (v : value) : jsstring :=
  match JSON.SerializeJSONProperty v with
  | Some t => t
  | None => lit "null"
  end.

(** The ids of the field set the specification prescribes for a type. *)
Definition field_set (type : jsstring) : list string :=
  if jseqb type (lit "exact_match") || jseqb type (lit "contains")
  then ["expectedOutput"%string]
  else if jseqb type (lit "function_call")
  then ["functionName"%string; "functionArgs"%string; "expectedOutput"%string]
  else [].

(** The four enumerated criteria types. *)
Definition enumerated_type (t : value) : Prop :=
  t = JStr (lit "none") \/ t = JStr (lit "exact_match")
  \/ t = JStr (lit "contains") \/ t = JStr (lit "function_call").

(** Two expected values that are one value up to the representation the
    expected field cannot tell apart: the same value, or a string and the
    JSON value its text denotes. *)
Definition same_expected (original rebuilt : value) : Prop :=
  rebuilt = original
  \/ exists s, original = JStr s /\ JSON.parse s = Some rebuilt.

(** The criteria objects of the data model, as they arrive from the wire
    format. *)
Definition valid_criteria (c : value) : Prop :=
  ((get c "type" = JStr (lit "exact_match") \/ get c "type" = JStr (lit "contains"))
   /\ exists s, get c "expected" = JStr s)
  \/ (get c "type" = JStr (lit "function_call")
      /\ (exists f, get c "function_name" = JStr f)
      /\ (exists l, get c "args" = JArr l /\ is_json (JArr l) = true)
      /\ is_json (get c "expected") = true).

(** Line breaks in a string: the characters a text input drops, and the
    one a text area rewrites. *)
Definition has_line_break (s : jsstring) : bool :=
  existsb (fun c => (c =? 10) || (c =? 13)) s.

Definition has_carriage_return (s : jsstring) : bool :=
  existsb (fun c => c =? 13) s.

(** [v] is not a string that [test] finds fault with. *)
Definition string_without (test : jsstring -> bool) (v : value) : bool :=
  match v with
  | JStr s => negb (test s)
  | _ => true
  end.

(** The strings of a criteria that the form shows as they are hold no line
    break their control would not keep: no line feed and no carriage return
    in the function name and in a string expected value of a
    [function_call], shown in text inputs; no carriage return in the
    expected value of the other types, shown in a text area. *)
Definition plain_strings (c : value) : bool :=
  if is_literal (get c "type") "function_call"
  then string_without has_line_break (get c "function_name")
       && string_without has_line_break (get c "expected")
  else string_without has_carriage_return (get c "expected").

(** [populateValidationFields] runs to completion on [c]: every value it
    assigns to a DOMString attribute converts to a string. These are the
    type (line 112), the expected value of an [exact_match] or [contains]
    criteria (line 120) and the function name of a [function_call] (line
    124). *)
Definition completes (c : value) : bool :=
  if truthy c && truthy (get c "type") then
    converts (get c "type")
    && (if is_literal (get c "type") "exact_match"
           || is_literal (get c "type") "contains"
        then converts (or_else (get c "expected") (JStr []))
        else if is_literal (get c "type") "function_call"
        then converts (or_else (get c "function_name") (JStr []))
        else true)
  else true.

(** Predicates the proofs about [JSON.parse] are stated with. *)

(** [rest] does not continue a run of digits. *)
Definition digits_end (rest : jsstring) : Prop :=
  match rest with
  | [] => True
  | c :: _ => is_digit c = false
  end.

(** [rest] does not continue a number token. *)
Definition number_end (rest : jsstring) : Prop :=
  match rest with
  | [] => True
  | c :: _ => is_digit c = false /\ c <> 46 /\ c <> 101 /\ c <> 69
  end.

(** [rest] is empty or begins with a comma or a closing bracket or brace. *)
Definition value_end (rest : jsstring) : Prop :=
  match rest with
  | [] => True
  | c :: _ => c = 44 \/ c = 93 \/ c = 125
  end.

(** The first character of a serialized value starts a value. *)
Definition value_start (c : N) : Prop :=
  JSON.is_ws c = false /\ c <> 93 /\ c <> 125.

(** A value whose text, followed by the end of a value, is parsed back to
    the value with any fuel above twice the length of what is left. *)
Definition reads_back (v : value) : Prop :=
  forall fuel rest,
    value_end rest ->
    (2 * length (text_of v ++ rest) < fuel)%nat ->
    JSON.parse_value fuel (text_of v ++ rest) = JSON.Ok v rest.

(** The text of one property of an object. *)
Definition member_text (kv : jsstring * value) : jsstring :=
  JSON.QuoteJSONString (fst kv) ++ lit ":" ++ text_of (snd kv).

(** The page on which [function_call] is selected and its three fields hold
    the given texts. *)
Definition function_call_page (name args expected : jsstring) : page :=
  {| validationTypeSelector := lit "function_call";
     validationFieldsContainer :=
       [ {| ctl_tag := input_text; ctl_id := "functionName"; ctl_value := name |};
         {| ctl_tag := input_text; ctl_id := "functionArgs"; ctl_value := args |};
         {| ctl_tag := input_text; ctl_id := "expectedOutput"; ctl_value := expected |} ] |}.

(* ------------------------------------------------------------------ *)
(** * Proofs *)

#[local] Arguments N.add : simpl never.
#[local] Arguments N.sub : simpl never.
#[local] Arguments N.mul : simpl never.
#[local] Arguments N.div : simpl never.
#[local] Arguments N.modulo : simpl never.
#[local] Arguments N.eqb : simpl nomatch.
#[local] Arguments N.leb : simpl nomatch.
#[local] Arguments N.ltb : simpl nomatch.
#[local] Arguments Z.add : simpl never.
#[local] Arguments Z.sub : simpl never.
#[local] Arguments Z.mul : simpl never.
#[local] Arguments Z.opp : simpl never.
#[local] Arguments Z.of_nat : simpl never.
#[local] Arguments Z.to_nat : simpl never.
#[local] Arguments Z.eqb : simpl nomatch.
#[local] Arguments Z.leb : simpl nomatch.
#[local] Arguments Z.ltb : simpl nomatch.

Ltac ncase :=
  match goal with
  | |- context [?a =? ?b] => destruct (N.eqb_spec a b)
  | |- context [?a <? ?b] => destruct (N.ltb_spec a b)
  | |- context [?a <=? ?b] => destruct (N.leb_spec a b)
  end.

Ltac ncases := repeat (ncase; try lia; simpl).

Lemma jseqb_eq a b : jseqb a b = true <-> a = b.
Proof.
  revert b; induction a as [|x a IH]; intros [|y b]; simpl; split;
    try congruence; intros H.
  - apply andb_true_iff in H as [H1 H2]. apply N.eqb_eq in H1.
    apply IH in H2. congruence.
  - injection H as -> ->. rewrite N.eqb_refl. simpl. now apply IH.
Qed.

Lemma jseqb_neq a b : jseqb a b = false <-> a <> b.
Proof.
  rewrite <- jseqb_eq. destruct (jseqb a b); split; congruence.
Qed.

(* ------------------------------------------------------------------ *)
(** ** JSON.parse reads back what JSON.stringify writes *)

Module JSONFacts.
Import JSON.

Lemma hex_split c :
  4096 * (c / 4096) + 256 * ((c / 256) mod 16) + 16 * ((c / 16) mod 16) + c mod 16 = c.
Proof.
  pose proof (N.div_mod' c 16) as H1.
  pose proof (N.div_mod' (c / 16) 16) as H2.
  pose proof (N.div_mod' (c / 16 / 16) 16) as H3.
  rewrite !N.Div0.div_div in *.
  change (16 * 16) with 256 in *. change (256 * 16) with 4096 in *.
  lia.
Qed.

Lemma hex_value_unit d : d < 16 -> hex_value (hex_unit d) = Some d.
Proof.
  intros Hd. unfold hex_value, hex_unit, is_digit.
  destruct (N.ltb_spec d 10); ncases; f_equal; lia.
Qed.

Lemma parse_escape c rest :
  c < 65536 ->
  parse_chars (UnicodeEscape c ++ rest) =
  prepend c (parse_chars rest).
Proof.
  intros Hc. unfold UnicodeEscape. simpl.
  unfold hex4_value.
  rewrite !hex_value_unit.
  - now rewrite hex_split.
  - apply N.mod_lt; lia.
  - apply N.mod_lt; lia.
  - apply N.mod_lt; lia.
  - apply N.Div0.div_lt_upper_bound. lia.
Qed.

Lemma parse_quote_unit c rest :
  is_high_surrogate c = false -> is_low_surrogate c = false ->
  parse_chars (quote_unit c ++ rest) = prepend c (parse_chars rest).
Proof.
  unfold is_high_surrogate, is_low_surrogate, quote_unit. intros Hh Hl.
  destruct (N.eqb_spec c 8) as [->|]; [reflexivity|].
  destruct (N.eqb_spec c 9) as [->|]; [reflexivity|].
  destruct (N.eqb_spec c 10) as [->|]; [reflexivity|].
  destruct (N.eqb_spec c 12) as [->|]; [reflexivity|].
  destruct (N.eqb_spec c 13) as [->|]; [reflexivity|].
  destruct (N.eqb_spec c 34) as [->|]; [reflexivity|].
  destruct (N.eqb_spec c 92) as [->|]; [reflexivity|].
  destruct (N.ltb_spec c 32).
  - apply parse_escape. lia.
  - simpl. ncases. reflexivity.
Qed.

Lemma parse_surrogate c rest :
  is_high_surrogate c = true \/ is_low_surrogate c = true ->
  parse_chars (c :: rest) = prepend c (parse_chars rest).
Proof.
  unfold is_high_surrogate, is_low_surrogate. intros H. simpl.
  assert (55296 <= c) by (destruct H as [H|H]; apply andb_true_iff in H as [H _];
                          apply N.leb_le in H; lia).
  ncases. reflexivity.
Qed.

Lemma surrogate_bound c :
  is_high_surrogate c = true \/ is_low_surrogate c = true -> c < 65536.
Proof.
  unfold is_high_surrogate, is_low_surrogate.
  intros [H|H]; apply andb_true_iff in H as [_ H]; apply N.leb_le in H; lia.
Qed.

(** Reading back a quoted string gives the string. *)
Lemma parse_chars_quote s rest :
  parse_chars (quote_units s ++ 34 :: rest) = Some (s, rest).
Proof.
  remember (length s) as n eqn:Hn.
  assert (Hlen : (length s <= n)%nat) by lia. clear Hn.
  revert s Hlen. induction n as [|n IH]; intros s Hlen.
  - destruct s; [reflexivity | simpl in Hlen; lia].
  - destruct s as [|c r]; [reflexivity|]. simpl in Hlen.
    cbn [quote_units].
    destruct (is_high_surrogate c) eqn:Hh.
    + destruct r as [|d r'].
      * rewrite parse_escape by (apply surrogate_bound; auto).
        reflexivity.
      * destruct (is_low_surrogate d) eqn:Hl.
        -- cbn [app]. rewrite parse_surrogate by auto.
           rewrite parse_surrogate by auto.
           rewrite IH by (simpl in Hlen; lia). reflexivity.
        -- rewrite <- app_assoc, parse_escape by (apply surrogate_bound; auto).
           rewrite IH by lia. reflexivity.
    + destruct (is_low_surrogate c) eqn:Hl.
      * rewrite <- app_assoc, parse_escape by (apply surrogate_bound; auto).
        rewrite IH by lia. reflexivity.
      * rewrite <- app_assoc, parse_quote_unit by assumption.
        rewrite IH by lia. reflexivity.
Qed.

Lemma span_digits_text ds rest :
  Forall (fun d => d < 10) ds -> digits_end rest ->
  span_digits (digits_text ds ++ rest) = (ds, rest).
Proof.
  intros Hds Hrest. induction Hds as [|d ds Hd _ IH]; simpl.
  - destruct rest as [|c rest]; [reflexivity|]. simpl in *. now rewrite Hrest.
  - unfold is_digit. ncases. rewrite IH. f_equal. f_equal. lia.
Qed.

Lemma span_uint_units u rest :
  digits_end rest ->
  exists ds, span_digits (uint_units u ++ rest) = (ds, rest)
             /\ digits_uint ds = u /\ (u <> Decimal.Nil -> ds <> []).
Proof.
  intros Hrest. induction u as [|u [ds [H1 [H2 H3]]]|u [ds [H1 [H2 H3]]]
    |u [ds [H1 [H2 H3]]]|u [ds [H1 [H2 H3]]]|u [ds [H1 [H2 H3]]]
    |u [ds [H1 [H2 H3]]]|u [ds [H1 [H2 H3]]]|u [ds [H1 [H2 H3]]]
    |u [ds [H1 [H2 H3]]]|u [ds [H1 [H2 H3]]]].
  - exists []. simpl. repeat split; try congruence.
    destruct rest as [|c rest]; [reflexivity|]. simpl in *. now rewrite Hrest.
  - exists (0 :: ds). simpl. rewrite H1, H2. repeat split; congruence.
  - exists (1 :: ds). simpl. rewrite H1, H2. repeat split; congruence.
  - exists (2 :: ds). simpl. rewrite H1, H2. repeat split; congruence.
  - exists (3 :: ds). simpl. rewrite H1, H2. repeat split; congruence.
  - exists (4 :: ds). simpl. rewrite H1, H2. repeat split; congruence.
  - exists (5 :: ds). simpl. rewrite H1, H2. repeat split; congruence.
  - exists (6 :: ds). simpl. rewrite H1, H2. repeat split; congruence.
  - exists (7 :: ds). simpl. rewrite H1, H2. repeat split; congruence.
  - exists (8 :: ds). simpl. rewrite H1, H2. repeat split; congruence.
  - exists (9 :: ds). simpl. rewrite H1, H2. repeat split; congruence.
Qed.

Lemma N_to_uint_nonnil m : N.to_uint m <> Decimal.Nil.
Proof.
  destruct m; simpl; [discriminate | apply DecimalPos.Unsigned.to_uint_nonnil].
Qed.

Lemma span_decimal_text m rest :
  digits_end rest ->
  exists ds, span_digits (decimal_text m ++ rest) = (ds, rest)
             /\ digits_value ds = m /\ ds <> [].
Proof.
  intros Hrest. unfold decimal_text, digits_value.
  destruct (span_uint_units (N.to_uint m) rest Hrest) as [ds [H1 [H2 H3]]].
  exists ds. rewrite H1, H2, DecimalN.Unsigned.of_to.
  repeat split. apply H3, N_to_uint_nonnil.
Qed.

Lemma hd_rev (s : list N) d : hd d (rev s) = last s d.
Proof.
  induction s as [|x s IH] using rev_ind; [reflexivity|].
  now rewrite rev_app_distr, last_last.
Qed.

Lemma strip_zeros_head s n : hd 0 s <> 0 -> strip_zeros s n = (s, n).
Proof.
  destruct s as [|d s]; simpl; [reflexivity|]. intros H. ncases. reflexivity.
Qed.

Lemma strip_zeros_repeat m s n :
  strip_zeros (repeat 0 m ++ s) n = strip_zeros s (n - Z.of_nat m)%Z.
Proof.
  revert n. induction m as [|m IH]; intros n; simpl.
  - f_equal. lia.
  - rewrite IH. f_equal. lia.
Qed.

Lemma strip_trailing_repeat s m :
  last s 0 <> 0 -> strip_trailing_zeros (s ++ repeat 0 m) = s.
Proof.
  intros H. unfold strip_trailing_zeros.
  rewrite rev_app_distr, rev_repeat, strip_zeros_repeat.
  rewrite strip_zeros_head by now rewrite hd_rev.
  apply rev_involutive.
Qed.

Lemma canonical_number_Dec neg s n :
  canonical_number (Dec neg s n) = true ->
  Forall (fun d => d < 10) s /\ hd 0 s <> 0 /\ last s 0 <> 0 /\ s <> [].
Proof.
  simpl. rewrite !andb_true_iff, !negb_true_iff, !N.eqb_neq, forallb_forall.
  intros [[H1 H2] H3]. repeat split; auto.
  - apply Forall_forall. intros d Hd. now apply N.ltb_lt, H1.
  - intros ->. now apply H2.
Qed.

Lemma number_of_digits_padded neg s n a b :
  canonical_number (Dec neg s n) = true ->
  number_of_digits neg (repeat 0 a ++ s ++ repeat 0 b) (n + Z.of_nat a) = Dec neg s n.
Proof.
  intros H. apply canonical_number_Dec in H as (_ & Hh & Hl & Hne).
  unfold number_of_digits. rewrite strip_zeros_repeat.
  rewrite strip_zeros_head by (destruct s; [congruence | exact Hh]).
  rewrite strip_trailing_repeat by assumption.
  destruct s; [congruence|]. f_equal. lia.
Qed.

Lemma parse_int_part_digits ip rest :
  Forall (fun d => d < 10) ip -> hd 0 ip <> 0 -> digits_end rest ->
  parse_int_part (digits_text ip ++ rest) = Some (ip, rest).
Proof.
  intros Hds Hh Hrest. destruct ip as [|d ip]; [simpl in Hh; congruence|].
  pose proof (span_digits_text (d :: ip) rest Hds Hrest) as Hspan.
  simpl in Hh. inversion Hds; subst.
  unfold parse_int_part. cbn [digits_text map app] in *.
  replace (48 + d =? 48) with false by (symmetry; apply N.eqb_neq; lia).
  replace (is_digit (48 + d)) with true
    by (symmetry; unfold is_digit; apply andb_true_iff; split; apply N.leb_le; lia).
  now rewrite Hspan.
Qed.

Lemma parse_int_part_zero rest :
  parse_int_part (48 :: rest) = Some ([0], rest).
Proof. reflexivity. Qed.

Lemma parse_fraction_digits fs rest :
  Forall (fun d => d < 10) fs -> fs <> [] -> digits_end rest ->
  parse_fraction (46 :: digits_text fs ++ rest) = Some (fs, rest).
Proof.
  intros Hds Hne Hrest. unfold parse_fraction. simpl.
  rewrite span_digits_text by assumption. destruct fs; congruence.
Qed.

Lemma parse_fraction_none rest :
  match rest with [] => True | c :: _ => c <> 46 end ->
  parse_fraction rest = Some ([], rest).
Proof.
  destruct rest as [|c rest]; simpl; [reflexivity|]. intros H.
  unfold parse_fraction. ncases. reflexivity.
Qed.

Lemma parse_exponent_none rest :
  match rest with [] => True | c :: _ => c <> 101 /\ c <> 69 end ->
  parse_exponent rest = Some (0%Z, rest).
Proof.
  destruct rest as [|c rest]; simpl; [reflexivity|]. intros [H1 H2].
  unfold parse_exponent. ncases. reflexivity.
Qed.

Lemma parse_exponent_text (e : Z) rest :
  digits_end rest ->
  parse_exponent
    (lit "e" ++ (if (e <? 0)%Z then lit "-" else lit "+") ++
     decimal_text (Z.abs_N e) ++ rest) = Some (e, rest).
Proof.
  intros Hrest.
  destruct (span_decimal_text (Z.abs_N e) rest Hrest) as [ds [H1 [H2 H3]]].
  unfold parse_exponent.
  destruct (Z.ltb_spec e 0); cbn [lit list_ascii_of_string map app N_of_ascii];
    simpl; rewrite H1; destruct ds; try congruence; rewrite H2;
    f_equal; f_equal; lia.
Qed.

Lemma digits_text_app a b : digits_text (a ++ b) = digits_text a ++ digits_text b.
Proof. apply map_app. Qed.

Lemma digits_text_zeros m : digits_text (repeat 0 m) = zeros m.
Proof. unfold digits_text, zeros. now rewrite map_repeat. Qed.

Lemma Forall_digit_zeros m : Forall (fun d => d < 10) (repeat 0 m).
Proof. apply Forall_forall. intros x Hx. apply repeat_spec in Hx. lia. Qed.

Lemma number_end_parts rest :
  number_end rest ->
  digits_end rest
  /\ match rest with [] => True | c :: _ => c <> 46 end
  /\ match rest with [] => True | c :: _ => c <> 101 /\ c <> 69 end.
Proof. destruct rest; simpl; tauto. Qed.

Lemma parse_unsigned_notation neg s n rest :
  canonical_number (Dec neg s n) = true -> number_end rest ->
  parse_unsigned neg (digits_notation s n ++ rest) = Some (Dec neg s n, rest).
Proof.
  intros Hc Hrest.
  pose proof (canonical_number_Dec _ _ _ Hc) as (Hds & Hh & Hl & Hne).
  apply number_end_parts in Hrest as (Hd & Hf & He).
  unfold digits_notation, parse_unsigned.
  destruct ((-5 <=? n)%Z && (n <=? 21)%Z) eqn:Hrange.
  - destruct (Z.leb_spec (Z.of_nat (length s)) n) as [Hk|Hk].
    + (* digits followed by zeros *)
      set (m := Z.to_nat (n - Z.of_nat (length s))).
      rewrite <- digits_text_zeros, <- digits_text_app.
      rewrite parse_int_part_digits; auto.
      * rewrite parse_fraction_none, parse_exponent_none by assumption.
        f_equal. f_equal. rewrite app_nil_r.
        rewrite <- (number_of_digits_padded neg s n 0 m Hc). simpl.
        f_equal. rewrite length_app, repeat_length. lia.
      * apply Forall_app. split; [assumption | apply Forall_digit_zeros].
      * destruct s; [congruence | exact Hh].
    + destruct (Z.ltb_spec 0 n) as [Hn|Hn].
      * (* a decimal point inside the digits *)
        set (i := Z.to_nat n).
        assert (Hi : (0 < i < length s)%nat) by lia.
        rewrite <- (firstn_skipn i s) in Hds. apply Forall_app in Hds as [Hd1 Hd2].
        rewrite <- app_assoc. rewrite parse_int_part_digits; auto.
        -- change (lit ".") with [46]. cbn [app].
           rewrite parse_fraction_digits; auto.
           ++ rewrite parse_exponent_none by assumption.
              f_equal. f_equal. rewrite firstn_skipn.
              rewrite <- (number_of_digits_padded neg s n 0 0 Hc). simpl.
              rewrite app_nil_r. f_equal. rewrite length_firstn. lia.
           ++ intros E. apply (f_equal (@length N)) in E.
              rewrite length_skipn in E. simpl in E. lia.
        -- destruct s as [|d s']; [congruence|].
           destruct i; [lia | exact Hh].
        -- simpl. reflexivity.
      * (* zero, a decimal point, zeros, the digits *)
        set (m := Z.to_nat (- n)).
        change (lit "0.") with [48; 46]. cbn [app].
        rewrite parse_int_part_zero.
        rewrite <- digits_text_zeros, <- digits_text_app.
        rewrite parse_fraction_digits; auto.
        -- rewrite parse_exponent_none by assumption.
           f_equal. f_equal.
           rewrite <- (number_of_digits_padded neg s n (S m) 0 Hc).
           rewrite app_nil_r. simpl. f_equal. lia.
        -- apply Forall_app. split; [apply Forall_digit_zeros | assumption].
        -- intros E. apply app_eq_nil in E as [_ E]. congruence.
  - (* exponent notation *)
    destruct s as [|d r]; [congruence|].
    inversion Hds as [|? ? Hd0 Hdr]; subst. simpl in Hh.
    assert (Hint : forall tail, digits_end tail ->
              parse_int_part (digits_text [d] ++ tail) = Some ([d], tail)).
    { intros tail Ht. apply parse_int_part_digits; auto. }
    destruct r as [|d' r'].
    + rewrite <- app_assoc. rewrite Hint by reflexivity.
      rewrite parse_fraction_none by (simpl; lia).
      rewrite <- !app_assoc.
      rewrite (parse_exponent_text (n - 1) rest Hd).
      f_equal. f_equal.
      rewrite <- (number_of_digits_padded neg [d] n 0 0 Hc). simpl.
      f_equal. lia.
    + rewrite <- app_assoc. rewrite Hint by reflexivity.
      change (lit ".") with [46]. cbn [app].
      rewrite <- !app_assoc.
      rewrite parse_fraction_digits; auto; try discriminate.
      * rewrite (parse_exponent_text (n - 1) rest Hd).
        f_equal. f_equal.
        rewrite <- (number_of_digits_padded neg (d :: d' :: r') n 0 0 Hc).
        simpl. rewrite app_nil_r. f_equal. lia.
      * reflexivity.
Qed.

Lemma parse_number_text x rest :
  canonical_number x = true -> number_end rest ->
  parse_number (Number_toString x ++ rest) = Some (x, rest).
Proof.
  intros Hc Hrest. destruct x as [|neg s n].
  - apply number_end_parts in Hrest as (Hd & Hf & He).
    cbn. unfold parse_unsigned. rewrite parse_int_part_zero.
    rewrite parse_fraction_none, parse_exponent_none by assumption.
    reflexivity.
  - unfold Number_toString. destruct neg.
    + change (lit "-") with [45]. cbn [app parse_number].
      change (45 =? 45) with true. cbn iota.
      now apply parse_unsigned_notation.
    + cbn [app].
      pose proof (parse_unsigned_notation false s n rest Hc Hrest) as H.
      destruct (digits_notation s n ++ rest) as [|c t] eqn:E.
      * discriminate H.
      * unfold parse_number. destruct (N.eqb_spec c 45) as [->|]; [|exact H].
        exfalso. unfold parse_unsigned in H. simpl in H. discriminate H.
Qed.

Lemma lookup_prop_absent k ps :
  Forall (fun kv => jseqb k (fst kv) = false) ps -> lookup_prop k ps = None.
Proof.
  induction 1 as [|[k' v'] ps Hk _ IH]; simpl in *; [reflexivity|].
  now rewrite Hk.
Qed.

Lemma insert_prop_last k v ps :
  Forall (fun kv => key_before k (fst kv) = false) ps ->
  insert_prop k v ps = ps ++ [(k, v)].
Proof.
  induction 1 as [|[k' v'] ps Hk _ IH]; simpl in *; [reflexivity|].
  now rewrite Hk, IH.
Qed.

Lemma canonical_keys_earlier a k b :
  canonical_keys (a ++ k :: b) = true ->
  Forall (fun k' => jseqb k k' = false /\ key_before k k' = false) a.
Proof.
  induction a as [|x a IH]; simpl; [constructor|].
  rewrite andb_true_iff, forallb_app. simpl.
  rewrite !andb_true_iff, !negb_true_iff. intros [[_ [[H1 H2] _]] H3].
  constructor; auto.
Qed.

Lemma fold_CreateDataProperty ps acc :
  canonical_keys (map fst (acc ++ ps)) = true ->
  fold_left CreateDataProperty ps acc = acc ++ ps.
Proof.
  revert acc. induction ps as [|[k v] ps IH]; intros acc H; simpl.
  - now rewrite app_nil_r.
  - rewrite map_app in H. simpl in H.
    pose proof (canonical_keys_earlier _ _ _ H) as Hk.
    assert (Hstep : CreateDataProperty acc (k, v) = acc ++ [(k, v)]).
    { unfold CreateDataProperty. simpl.
      rewrite lookup_prop_absent, insert_prop_last; [reflexivity| |].
      - apply Forall_forall. intros kv Hin.
        rewrite Forall_forall in Hk. apply (Hk (fst kv)), in_map, Hin.
      - apply Forall_forall. intros kv Hin.
        rewrite Forall_forall in Hk. apply (Hk (fst kv)), in_map, Hin. }
    rewrite Hstep, IH.
    + now rewrite <- app_assoc.
    + rewrite <- app_assoc. simpl. rewrite map_app. exact H.
Qed.

Lemma object_of_canonical ps :
  canonical_keys (map fst ps) = true -> object_of_members ps = JObj ps.
Proof.
  intros H. unfold object_of_members. now rewrite fold_CreateDataProperty.
Qed.

Lemma value_end_number rest : value_end rest -> number_end rest.
Proof.
  destruct rest as [|c rest]; simpl; [tauto|].
  unfold is_digit. intros [-> | [-> | ->]]; repeat split; try lia; reflexivity.
Qed.

Lemma parse_value_S fuel s :
  parse_value (S fuel) s =
  match skip_ws s with
  | [] => SyntaxError
  | c :: r =>
      if c =? 91 then
        match skip_ws r with
        | c' :: r' =>
            if c' =? 93 then Ok (JArr []) r'
            else bind (parse_elements fuel r) (fun vs rest => Ok (JArr vs) rest)
        | [] => SyntaxError
        end
      else if c =? 123 then
        match skip_ws r with
        | c' :: r' =>
            if c' =? 125 then Ok (JObj []) r'
            else bind (parse_members fuel r)
                      (fun ms rest => Ok (object_of_members ms) rest)
        | [] => SyntaxError
        end
      else if c =? 34 then
        match parse_chars r with
        | Some (t, rest) => Ok (JStr t) rest
        | None => SyntaxError
        end
      else if c =? 110 then
        match strip_prefix (lit "ull") r with
        | Some rest => Ok JNull rest
        | None => SyntaxError
        end
      else if c =? 116 then
        match strip_prefix (lit "rue") r with
        | Some rest => Ok (JBool true) rest
        | None => SyntaxError
        end
      else if c =? 102 then
        match strip_prefix (lit "alse") r with
        | Some rest => Ok (JBool false) rest
        | None => SyntaxError
        end
      else
        match parse_number (c :: r) with
        | Some (x, rest) => Ok (JNum x) rest
        | None => SyntaxError
        end
  end.
Proof. reflexivity. Qed.

Lemma parse_elements_S fuel s :
  parse_elements (S fuel) s =
  bind (parse_value fuel s) (fun v r =>
    match skip_ws r with
    | c :: r' =>
        if c =? 44 then
          bind (parse_elements fuel r') (fun vs rest => Ok (v :: vs) rest)
        else if c =? 93 then Ok [v] r'
        else SyntaxError
    | [] => SyntaxError
    end).
Proof. reflexivity. Qed.

Lemma parse_members_S fuel s :
  parse_members (S fuel) s =
  match skip_ws s with
  | c :: r =>
      if c =? 34 then
        match parse_chars r with
        | Some (k, r1) =>
            match skip_ws r1 with
            | c1 :: r2 =>
                if c1 =? 58 then
                  bind (parse_value fuel r2) (fun v r3 =>
                    match skip_ws r3 with
                    | c3 :: r4 =>
                        if c3 =? 44 then
                          bind (parse_members fuel r4)
                               (fun ms rest => Ok ((k, v) :: ms) rest)
                        else if c3 =? 125 then Ok [(k, v)] r4
                        else SyntaxError
                    | [] => SyntaxError
                    end)
                else SyntaxError
            | [] => SyntaxError
            end
        | None => SyntaxError
        end
      else SyntaxError
  | [] => SyntaxError
  end.
Proof. reflexivity. Qed.

Lemma digits_notation_head s n :
  Forall (fun d => d < 10) s -> s <> [] ->
  exists c t, digits_notation s n = c :: t /\ is_digit c = true.
Proof.
  intros Hds Hne. destruct s as [|d r]; [congruence|].
  inversion Hds; subst.
  assert (Hd : is_digit (48 + d) = true)
    by (unfold is_digit; apply andb_true_iff; split; apply N.leb_le; lia).
  unfold digits_notation.
  destruct ((-5 <=? n)%Z && (n <=? 21)%Z).
  - destruct (Z.leb_spec (Z.of_nat (length (d :: r))) n).
    + eexists _, _. split; [reflexivity | exact Hd].
    + destruct (Z.ltb_spec 0 n).
      * destruct (Z.to_nat n) eqn:E; [lia|].
        eexists _, _. split; [reflexivity | exact Hd].
      * eexists _, _. split; reflexivity.
  - destruct r; eexists _, _; (split; [reflexivity | exact Hd]).
Qed.

Lemma Number_toString_head x :
  canonical_number x = true ->
  exists c t, Number_toString x = c :: t /\ (c = 45 \/ is_digit c = true).
Proof.
  destruct x as [|neg s n]; intros H.
  - eexists _, _. split; [reflexivity | now right].
  - apply canonical_number_Dec in H as (Hds & _ & _ & Hne).
    destruct (digits_notation_head s n Hds Hne) as (c & t & E & Hc).
    unfold Number_toString. rewrite E. destruct neg.
    + eexists _, _. split; [reflexivity | now left].
    + eexists _, _. split; [reflexivity | now right].
Qed.

Lemma is_digit_range c : is_digit c = true -> 48 <= c <= 57.
Proof.
  unfold is_digit. rewrite andb_true_iff, !N.leb_le. tauto.
Qed.

Lemma text_of_head v :
  is_json v = true -> exists c t, text_of v = c :: t /\ value_start c.
Proof.
  unfold value_start, is_ws, text_of.
  destruct v as [| |[|]|x|s|l|ps]; cbn [is_json SerializeJSONProperty]; intros H.
  - discriminate.
  - eexists _, _; split; [reflexivity | repeat split; (reflexivity || discriminate)].
  - eexists _, _; split; [reflexivity | repeat split; (reflexivity || discriminate)].
  - eexists _, _; split; [reflexivity | repeat split; (reflexivity || discriminate)].
  - destruct (Number_toString_head x H) as (c & t & E & Hc).
    exists c, t. split; [exact E|].
    destruct Hc as [-> | Hc]; [repeat split; (reflexivity || lia)|].
    apply is_digit_range in Hc. repeat split; try lia. ncases; reflexivity.
  - eexists _, _; split; [reflexivity | repeat split; (reflexivity || discriminate)].
  - eexists _, _; split; [reflexivity | repeat split; (reflexivity || discriminate)].
  - eexists _, _; split; [reflexivity | repeat split; (reflexivity || discriminate)].
Qed.

Lemma skip_ws_start c t : is_ws c = false -> skip_ws (c :: t) = c :: t.
Proof. intros H. simpl. now rewrite H. Qed.

Ltac fuel_lia H :=
  repeat (rewrite length_app in H || cbn [length app] in H);
  repeat (rewrite length_app || cbn [length app]);
  lia.

Lemma parse_elements_text l :
  l <> [] -> Forall reads_back l ->
  forall fuel rest,
    (2 * length (join (lit ",") (map text_of l) ++ 93%N :: rest) + 1 < fuel)%nat ->
    parse_elements fuel (join (lit ",") (map text_of l) ++ 93 :: rest) = Ok l rest.
Proof.
  intros Hne Hall. induction Hall as [|v l Hv Hl IH]; [congruence|].
  intros fuel rest Hfuel. destruct fuel as [|fuel]; [lia|].
  rewrite parse_elements_S. destruct l as [|v2 l'].
  - cbn [map join] in *. rewrite Hv; [|simpl; auto|lia].
    cbn [bind]. reflexivity.
  - cbn [map join] in *. change (lit ",") with [44] in *.
    rewrite <- !app_assoc in *. cbn [app] in *.
    rewrite Hv; [|simpl; auto|lia].
    cbn [bind]. rewrite skip_ws_start by reflexivity.
    change (44 =? 44) with true. cbn iota.
    rewrite IH; [reflexivity|discriminate|].
    fuel_lia Hfuel.
Qed.

Lemma parse_members_text ps :
  ps <> [] -> Forall (fun kv => reads_back (snd kv)) ps ->
  forall fuel rest,
    (2 * length (join (lit ",") (map member_text ps) ++ 125%N :: rest) + 1 < fuel)%nat ->
    parse_members fuel (join (lit ",") (map member_text ps) ++ 125 :: rest)
    = Ok ps rest.
Proof.
  intros Hne Hall. induction Hall as [|[k v] ps Hv Hl IH]; [congruence|].
  intros fuel rest Hfuel. destruct fuel as [|fuel]; [lia|].
  rewrite parse_members_S. simpl in Hv. destruct ps as [|kv2 ps'].
  - cbn [map join] in *. unfold member_text, QuoteJSONString in *.
    cbn [fst snd] in *. change (lit ":") with [58] in *.
    rewrite <- !app_assoc in *. cbn [app] in *.
    rewrite skip_ws_start by reflexivity.
    change (34 =? 34) with true. cbn iota.
    rewrite parse_chars_quote. rewrite skip_ws_start by reflexivity.
    change (58 =? 58) with true. cbn iota.
    rewrite Hv; [|simpl; auto|].
    + cbn [bind]. reflexivity.
    + fuel_lia Hfuel.
  - cbn [map join] in *. unfold member_text at 1, QuoteJSONString at 1.
    unfold member_text at 1, QuoteJSONString at 1 in Hfuel.
    cbn [fst snd] in *. change (lit ":") with [58] in *.
    change (lit ",") with [44] in *.
    rewrite <- !app_assoc in *. cbn [app] in *.
    rewrite skip_ws_start by reflexivity.
    change (34 =? 34) with true. cbn iota.
    rewrite parse_chars_quote. rewrite skip_ws_start by reflexivity.
    change (58 =? 58) with true. cbn iota.
    rewrite Hv; [|simpl; auto|].
    + cbn [bind]. rewrite skip_ws_start by reflexivity.
      change (44 =? 44) with true. cbn iota.
      rewrite IH; [reflexivity|discriminate|].
      fuel_lia Hfuel.
    + fuel_lia Hfuel.
Qed.

Lemma serialize_json v :
  is_json v = true -> SerializeJSONProperty v = Some (text_of v).
Proof.
  unfold text_of. destruct (SerializeJSONProperty v) eqn:E; [reflexivity|].
  destruct v as [| |[|]| | | |]; simpl in *; discriminate.
Qed.

Lemma members_text ps :
  forallb (fun kv => is_json (snd kv)) ps = true ->
  flat_map (fun kv => match SerializeJSONProperty (snd kv) with
                      | Some t => [QuoteJSONString (fst kv) ++ lit ":" ++ t]
                      | None => []
                      end) ps
  = map member_text ps.
Proof.
  induction ps as [|kv ps IH]; cbn [flat_map map forallb]; [reflexivity|].
  rewrite andb_true_iff. intros [H1 H2].
  rewrite (serialize_json _ H1), IH by assumption. reflexivity.
Qed.

Lemma join_head (parts : list jsstring) c t rest' :
  join (lit ",") ((c :: t) :: parts) ++ rest' = c :: (join (lit ",") (t :: parts) ++ rest').
Proof. destruct parts; reflexivity. Qed.

Lemma reads_back_json v : is_json v = true -> reads_back v.
Proof.
  induction v as [| |b|x|s|l IH|ps IH] using value_induction;
    intros Hj fuel rest Hrest Hfuel;
    (destruct fuel as [|fuel]; [lia|]); rewrite parse_value_S.
  - discriminate.
  - reflexivity.
  - destruct b; reflexivity.
  - simpl in Hj. pose proof (parse_number_text x rest Hj (value_end_number _ Hrest)) as Hp.
    destruct (Number_toString_head x Hj) as (c & t & E & Hc).
    unfold text_of. cbn [SerializeJSONProperty]. rewrite E in *. cbn [app] in *.
    assert (Hcode : c = 45 \/ 48 <= c <= 57)
      by (destruct Hc as [Hc|Hc]; [now left | right; now apply is_digit_range]).
    rewrite skip_ws_start by (unfold is_ws; ncases; reflexivity).
    rewrite Hp. ncases. reflexivity.
  - unfold text_of. cbn [SerializeJSONProperty]. unfold QuoteJSONString.
    rewrite <- !app_assoc. cbn [app].
    rewrite skip_ws_start by reflexivity.
    change (34 =? 91) with false. change (34 =? 123) with false.
    change (34 =? 34) with true. cbn iota.
    now rewrite parse_chars_quote.
  - unfold text_of in *. cbn [SerializeJSONProperty] in *.
    change (map _ l) with (map text_of l) in *.
    change (lit "[") with [91] in *. change (lit "]") with [93] in *.
    rewrite <- !app_assoc in *. cbn [app] in *.
    rewrite skip_ws_start by reflexivity.
    change (91 =? 91) with true. cbn iota.
    destruct l as [|v l]; [reflexivity|].
    simpl in Hj. apply andb_true_iff in Hj as [Hv Hl].
    assert (Hall : Forall reads_back (v :: l)).
    { inversion IH as [|? ? IHv IHl]; subst. constructor; [auto|].
      rewrite forallb_forall in Hl. rewrite Forall_forall in *. auto. }
    destruct (text_of_head v Hv) as (c & t & E & Hs & Hc & _).
    rewrite (parse_elements_text (v :: l)); [| discriminate | exact Hall | fuel_lia Hfuel].
    cbn [map]. rewrite E, join_head, skip_ws_start by assumption.
    apply N.eqb_neq in Hc. rewrite Hc. reflexivity.
  - unfold text_of in *. cbn [SerializeJSONProperty] in *.
    simpl in Hj. apply andb_true_iff in Hj as [Hk Hvs].
    rewrite (members_text ps Hvs) in *.
    change (lit "{") with [123] in *. change (lit "}") with [125] in *.
    rewrite <- !app_assoc in *. cbn [app] in *.
    rewrite skip_ws_start by reflexivity.
    change (123 =? 91) with false. change (123 =? 123) with true. cbn iota.
    destruct ps as [|kv ps]; [reflexivity|].
    assert (Hall : Forall (fun kv => reads_back (snd kv)) (kv :: ps)).
    { rewrite forallb_forall in Hvs. rewrite Forall_forall in *. auto. }
    rewrite (parse_members_text (kv :: ps)); [| discriminate | exact Hall | fuel_lia Hfuel].
    cbn [map]. unfold member_text at 1, QuoteJSONString at 1.
    rewrite <- app_assoc. cbn [app].
    rewrite join_head, skip_ws_start by reflexivity.
    change (34 =? 125) with false. cbn iota. cbn [bind].
    now rewrite object_of_canonical.
Qed.

(** Parsing the text that [JSON.stringify] writes for a JSON value gives the
    value back. *)
Theorem parse_stringify v :
  is_json v = true ->
  JSON.stringify v = JStr (text_of v) /\ JSON.parse (text_of v) = Some v.
Proof.
  intros Hj. split.
  - unfold JSON.stringify. now rewrite serialize_json.
  - unfold JSON.parse.
    pose proof (reads_back_json v Hj (S (2 * length (text_of v))) []) as H.
    rewrite app_nil_r in H. rewrite H; [reflexivity | exact I | lia].
Qed.

Lemma skip_ws_length s : (length (skip_ws s) <= length s)%nat.
Proof.
  induction s as [|c s IH]; simpl; [lia|]. destruct (is_ws c); simpl; lia.
Qed.

Lemma skip_ws_cons s c r : skip_ws s = c :: r -> (length r < length s)%nat.
Proof.
  intros E. pose proof (skip_ws_length s) as H. rewrite E in H. simpl in H. lia.
Qed.

Lemma prepend_length u r t rest (n : nat) :
  prepend u r = Some (t, rest) ->
  (forall t' rest', r = Some (t', rest') -> (length rest' < n)%nat) ->
  (length rest < n)%nat.
Proof.
  destruct r as [[t' rest']|]; simpl; [|discriminate].
  intros E H. injection E as _ <-. now apply (H t').
Qed.

Lemma parse_chars_length s t rest :
  parse_chars s = Some (t, rest) -> (length rest < length s)%nat.
Proof.
  remember (length s) as n eqn:Hn.
  assert (Hlen : (length s <= n)%nat) by lia. clear Hn.
  revert s t rest Hlen. induction n as [|n IH]; intros s t rest Hlen.
  - destruct s; [discriminate | simpl in Hlen; lia].
  - destruct s as [|c r]; [discriminate|]. simpl in Hlen. cbn [parse_chars].
    destruct (c =? 34).
    + intros E. injection E as _ <-. lia.
    + destruct (c =? 92).
      * destruct r as [|e r1]; [discriminate|]. simpl in Hlen.
        destruct (e =? 117).
        -- destruct r1 as [|h1 [|h2 [|h3 [|h4 r2]]]]; try discriminate.
           simpl in Hlen.
           destruct (hex4_value h1 h2 h3 h4); [|discriminate].
           intros E. apply (prepend_length _ _ _ _ (S n) E).
           intros t' rest' E'. apply IH in E'; lia.
        -- destruct (escape_unit e); [|discriminate].
           intros E. apply (prepend_length _ _ _ _ (S n) E).
           intros t' rest' E'. apply IH in E'; lia.
      * destruct (c <? 32); [discriminate|].
        intros E. apply (prepend_length _ _ _ _ (S n) E).
        intros t' rest' E'. apply IH in E'; lia.
Qed.

Lemma strip_prefix_length p s rest :
  strip_prefix p s = Some rest -> (length rest <= length s)%nat.
Proof.
  revert s. induction p as [|x p IH]; intros s; simpl.
  - intros E. injection E as <-. lia.
  - destruct s as [|y s]; [discriminate|]. destruct (x =? y); [|discriminate].
    intros E. apply IH in E. simpl. lia.
Qed.

Lemma span_digits_length s :
  (length (snd (span_digits s)) <= length s)%nat.
Proof.
  induction s as [|c s IH]; simpl; [lia|].
  destruct (is_digit c); [|simpl; lia].
  destruct (span_digits s). simpl in *. lia.
Qed.

Lemma parse_int_part_length s ip rest :
  parse_int_part s = Some (ip, rest) -> (length rest < length s)%nat.
Proof.
  unfold parse_int_part. destruct s as [|c r]; [discriminate|].
  destruct (c =? 48).
  - intros E. injection E as _ <-. simpl. lia.
  - destruct (is_digit c) eqn:Hc; [|discriminate].
    pose proof (span_digits_length r) as H.
    cbn [span_digits]. rewrite Hc. destruct (span_digits r).
    intros E. injection E as _ <-. simpl in *. lia.
Qed.

Lemma parse_fraction_length s fs rest :
  parse_fraction s = Some (fs, rest) -> (length rest <= length s)%nat.
Proof.
  unfold parse_fraction. destruct s as [|c r].
  - intros E. injection E as _ <-. lia.
  - destruct (c =? 46).
    + pose proof (span_digits_length r) as H.
      destruct (span_digits r) as [[|d ds] rest']; [discriminate|].
      intros E. injection E as _ <-. simpl in *. lia.
    + intros E. injection E as _ <-. lia.
Qed.

Lemma parse_exponent_length s e rest :
  parse_exponent s = Some (e, rest) -> (length rest <= length s)%nat.
Proof.
  unfold parse_exponent. destruct s as [|c r].
  - intros E. injection E as _ <-. lia.
  - destruct ((c =? 101) || (c =? 69)).
    + destruct r as [|sg r'].
      * simpl. discriminate.
      * pose proof (span_digits_length r') as H1.
        pose proof (span_digits_length (sg :: r')) as H2.
        destruct (sg =? 45); [|destruct (sg =? 43)].
        -- destruct (span_digits r') as [[|d ds] rest']; [discriminate|].
           intros E. injection E as _ <-. simpl in *. lia.
        -- destruct (span_digits r') as [[|d ds] rest']; [discriminate|].
           intros E. injection E as _ <-. simpl in *. lia.
        -- destruct (span_digits (sg :: r')) as [[|d ds] rest']; [discriminate|].
           intros E. injection E as _ <-. simpl in *. lia.
    + intros E. injection E as _ <-. lia.
Qed.

Lemma parse_unsigned_length neg s x rest :
  parse_unsigned neg s = Some (x, rest) -> (length rest < length s)%nat.
Proof.
  unfold parse_unsigned.
  destruct (parse_int_part s) as [[ip s2]|] eqn:E1; [|discriminate].
  destruct (parse_fraction s2) as [[fs s3]|] eqn:E2; [|discriminate].
  destruct (parse_exponent s3) as [[e s4]|] eqn:E3; [|discriminate].
  intros E. injection E as _ <-.
  apply parse_int_part_length in E1. apply parse_fraction_length in E2.
  apply parse_exponent_length in E3. lia.
Qed.

Lemma parse_number_length s x rest :
  parse_number s = Some (x, rest) -> (length rest < length s)%nat.
Proof.
  unfold parse_number. destruct s as [|c r]; [discriminate|].
  destruct (c =? 45); intros E; apply parse_unsigned_length in E; simpl in *; lia.
Qed.

(** Every parser that succeeds has consumed at least one character. *)
Lemma parse_consumes fuel :
  (forall s v rest, parse_value fuel s = Ok v rest -> (length rest < length s)%nat)
  /\ (forall s vs rest, parse_elements fuel s = Ok vs rest -> (length rest < length s)%nat)
  /\ (forall s ms rest, parse_members fuel s = Ok ms rest -> (length rest < length s)%nat).
Proof.
  induction fuel as [|fuel (IHv & IHe & IHm)].
  - repeat split; intros; discriminate.
  - repeat split.
    + intros s v rest. rewrite parse_value_S.
      destruct (skip_ws s) as [|c r] eqn:Es; [discriminate|].
      apply skip_ws_cons in Es.
      destruct (c =? 91).
      { destruct (skip_ws r) as [|c' r'] eqn:Er; [discriminate|].
        apply skip_ws_cons in Er.
        destruct (c' =? 93).
        - intros E. injection E as _ <-. lia.
        - destruct (parse_elements fuel r) as [vs rest'| |] eqn:Ee; try discriminate.
          cbn [bind]. intros E. injection E as _ <-. apply IHe in Ee. lia. }
      destruct (c =? 123).
      { destruct (skip_ws r) as [|c' r'] eqn:Er; [discriminate|].
        apply skip_ws_cons in Er.
        destruct (c' =? 125).
        - intros E. injection E as _ <-. lia.
        - destruct (parse_members fuel r) as [ms rest'| |] eqn:Ee; try discriminate.
          cbn [bind]. intros E. injection E as _ <-. apply IHm in Ee. lia. }
      destruct (c =? 34).
      { destruct (parse_chars r) as [[t rest']|] eqn:Ec; [|discriminate].
        intros E. injection E as _ <-. apply parse_chars_length in Ec. lia. }
      destruct (c =? 110).
      { destruct (strip_prefix (lit "ull") r) as [rest'|] eqn:Ep; [|discriminate].
        intros E. injection E as _ <-. apply strip_prefix_length in Ep. lia. }
      destruct (c =? 116).
      { destruct (strip_prefix (lit "rue") r) as [rest'|] eqn:Ep; [|discriminate].
        intros E. injection E as _ <-. apply strip_prefix_length in Ep. lia. }
      destruct (c =? 102).
      { destruct (strip_prefix (lit "alse") r) as [rest'|] eqn:Ep; [|discriminate].
        intros E. injection E as _ <-. apply strip_prefix_length in Ep. lia. }
      destruct (parse_number (c :: r)) as [[x rest']|] eqn:En; [|discriminate].
      intros E. injection E as _ <-. apply parse_number_length in En.
      simpl in En. lia.
    + intros s vs rest. rewrite parse_elements_S.
      destruct (parse_value fuel s) as [v r| |] eqn:Ev; try discriminate.
      apply IHv in Ev. cbn [bind].
      destruct (skip_ws r) as [|c r'] eqn:Er; [discriminate|].
      apply skip_ws_cons in Er.
      destruct (c =? 44).
      * destruct (parse_elements fuel r') as [vs' rest'| |] eqn:Ee; try discriminate.
        cbn [bind]. intros E. injection E as _ <-. apply IHe in Ee. lia.
      * destruct (c =? 93); [|discriminate].
        intros E. injection E as _ <-. lia.
    + intros s ms rest. rewrite parse_members_S.
      destruct (skip_ws s) as [|c r] eqn:Es; [discriminate|].
      apply skip_ws_cons in Es.
      destruct (c =? 34); [|discriminate].
      destruct (parse_chars r) as [[k r1]|] eqn:Ec; [|discriminate].
      apply parse_chars_length in Ec.
      destruct (skip_ws r1) as [|c1 r2] eqn:E1; [discriminate|].
      apply skip_ws_cons in E1.
      destruct (c1 =? 58); [|discriminate].
      destruct (parse_value fuel r2) as [v r3| |] eqn:Ev; try discriminate.
      apply IHv in Ev. cbn [bind].
      destruct (skip_ws r3) as [|c3 r4] eqn:E3; [discriminate|].
      apply skip_ws_cons in E3.
      destruct (c3 =? 44).
      * destruct (parse_members fuel r4) as [ms' rest'| |] eqn:Em; try discriminate.
        cbn [bind]. intros E. injection E as _ <-. apply IHm in Em. lia.
      * destruct (c3 =? 125); [|discriminate].
        intros E. injection E as _ <-. lia.
Qed.

(** With more fuel than twice the length of the text, no parser stops for
    lack of fuel. *)
Lemma parse_fuel fuel :
  (forall s, (2 * length s < fuel)%nat -> parse_value fuel s <> OutOfFuel)
  /\ (forall s, (2 * length s + 1 < fuel)%nat -> parse_elements fuel s <> OutOfFuel)
  /\ (forall s, (2 * length s + 1 < fuel)%nat -> parse_members fuel s <> OutOfFuel).
Proof.
  induction fuel as [|fuel (IHv & IHe & IHm)].
  - repeat split; intros; lia.
  - destruct (parse_consumes fuel) as (Cv & Ce & Cm). repeat split.
    + intros s Hs. rewrite parse_value_S.
      destruct (skip_ws s) as [|c r] eqn:Es; [discriminate|].
      apply skip_ws_cons in Es.
      destruct (c =? 91).
      { destruct (skip_ws r) as [|c' r']; [discriminate|].
        destruct (c' =? 93); [discriminate|].
        specialize (IHe r). destruct (parse_elements fuel r); cbn [bind];
          try discriminate. intros _. apply IHe; [lia | reflexivity]. }
      destruct (c =? 123).
      { destruct (skip_ws r) as [|c' r']; [discriminate|].
        destruct (c' =? 125); [discriminate|].
        specialize (IHm r). destruct (parse_members fuel r); cbn [bind];
          try discriminate. intros _. apply IHm; [lia | reflexivity]. }
      destruct (c =? 34); [destruct (parse_chars r) as [[? ?]|]; discriminate|].
      destruct (c =? 110); [destruct (strip_prefix _ r); discriminate|].
      destruct (c =? 116); [destruct (strip_prefix _ r); discriminate|].
      destruct (c =? 102); [destruct (strip_prefix _ r); discriminate|].
      destruct (parse_number (c :: r)) as [[? ?]|]; discriminate.
    + intros s Hs. rewrite parse_elements_S.
      specialize (IHv s).
      destruct (parse_value fuel s) as [v r| |] eqn:Ev; cbn [bind];
        [|discriminate|intros _; apply IHv; [lia | reflexivity]].
      apply Cv in Ev.
      destruct (skip_ws r) as [|c r'] eqn:Er; [discriminate|].
      apply skip_ws_cons in Er.
      destruct (c =? 44).
      * specialize (IHe r'). destruct (parse_elements fuel r'); cbn [bind];
          try discriminate. intros _. apply IHe; [lia | reflexivity].
      * destruct (c =? 93); discriminate.
    + intros s Hs. rewrite parse_members_S.
      destruct (skip_ws s) as [|c r] eqn:Es; [discriminate|].
      apply skip_ws_cons in Es.
      destruct (c =? 34); [|discriminate].
      destruct (parse_chars r) as [[k r1]|] eqn:Ec; [|discriminate].
      apply parse_chars_length in Ec.
      destruct (skip_ws r1) as [|c1 r2] eqn:E1; [discriminate|].
      apply skip_ws_cons in E1.
      destruct (c1 =? 58); [|discriminate].
      specialize (IHv r2).
      destruct (parse_value fuel r2) as [v r3| |] eqn:Ev; cbn [bind];
        [|discriminate|intros _; apply IHv; [lia | reflexivity]].
      apply Cv in Ev.
      destruct (skip_ws r3) as [|c3 r4] eqn:E3; [discriminate|].
      apply skip_ws_cons in E3.
      destruct (c3 =? 44).
      * specialize (IHm r4). destruct (parse_members fuel r4); cbn [bind];
          try discriminate. intros _. apply IHm; [lia | reflexivity].
      * destruct (c3 =? 125); discriminate.
Qed.

(** [JSON.parse] never stops for lack of fuel: [None] is a syntax error. *)
Theorem parse_value_fuel text :
  parse_value (S (2 * length text)) text <> OutOfFuel.
Proof. apply parse_fuel. lia. Qed.

End JSONFacts.
Import JSONFacts.

(* ------------------------------------------------------------------ *)
(** ** The renderer *)

Section Renderer.

Lemma render_cases p :
  handleValidationChange p =
  set_innerHTML
    (if jseqb (validationTypeSelector p) (lit "exact_match")
        || jseqb (validationTypeSelector p) (lit "contains")
     then fieldTemplates.expected
     else if jseqb (validationTypeSelector p) (lit "function_call")
     then fieldTemplates.function_call
     else [])
    p.
Proof.
  unfold handleValidationChange. cbn [set_innerHTML validationTypeSelector].
  destruct (jseqb _ (lit "exact_match") || jseqb _ (lit "contains")); [reflexivity|].
  destruct (jseqb _ (lit "function_call")); reflexivity.
Qed.

Lemma render_selector p :
  validationTypeSelector (handleValidationChange p) = validationTypeSelector p.
Proof. now rewrite render_cases. Qed.

Lemma render_ids p :
  map ctl_id (validationFieldsContainer (handleValidationChange p))
  = field_set (validationTypeSelector p).
Proof.
  rewrite render_cases. unfold field_set. cbn [set_innerHTML validationFieldsContainer].
  destruct (jseqb _ (lit "exact_match") || jseqb _ (lit "contains")); [reflexivity|].
  destruct (jseqb _ (lit "function_call")); reflexivity.
Qed.

End Renderer.

(** C8. The renderer is idempotent: rendering twice leaves the page that
    rendering once leaves, and the container never holds an id twice. *)
Theorem render_idempotent (p : page) :
  handleValidationChange (handleValidationChange p) = handleValidationChange p
  /\ NoDup (map ctl_id (validationFieldsContainer (handleValidationChange p))).
Proof.
  split.
  - rewrite (render_cases (handleValidationChange p)), render_selector.
    rewrite (render_cases p). reflexivity.
  - rewrite render_ids. unfold field_set.
    destruct (jseqb _ (lit "exact_match") || jseqb _ (lit "contains")).
    + repeat constructor. simpl. tauto.
    + destruct (jseqb _ (lit "function_call")); repeat constructor; simpl;
        intuition discriminate.
Qed.

(** C5. After a render the container holds exactly the field set of the
    selected type, each field empty, whatever it held before; rendering
    [function_call] and then [exact_match] leaves the expected-output field
    alone. *)
Theorem render_replaces_fields (p : page) :
  map ctl_id (validationFieldsContainer (handleValidationChange p))
    = field_set (validationTypeSelector p)
  /\ Forall (fun c => ctl_value c = [])
            (validationFieldsContainer (handleValidationChange p))
  /\ (forall fields,
        validationFieldsContainer (handleValidationChange (set_innerHTML fields p))
        = validationFieldsContainer (handleValidationChange p))
  /\ (let p1 := handleValidationChange (set_selector (lit "function_call") p) in
      let p2 := handleValidationChange (set_selector (lit "exact_match") p1) in
      map ctl_id (validationFieldsContainer p1)
        = ["functionName"; "functionArgs"; "expectedOutput"]%string
      /\ map ctl_id (validationFieldsContainer p2) = ["expectedOutput"%string]
      /\ getElementById "functionName" p2 = None
      /\ getElementById "functionArgs" p2 = None).
Proof.
  split; [apply render_ids|]. split; [|split].
  - rewrite render_cases. cbn [set_innerHTML validationFieldsContainer].
    destruct (jseqb _ (lit "exact_match") || jseqb _ (lit "contains")).
    + repeat constructor.
    + destruct (jseqb _ (lit "function_call")); repeat constructor.
  - intros fields. now rewrite !render_cases.
  - repeat split.
Qed.

(* ------------------------------------------------------------------ *)
(** ** Building a criteria object from the form *)

Section Build.

Lemma truthy_JStr s : truthy (JStr s) = negb (jseqb s []).
Proof. destruct s; reflexivity. Qed.

Lemma or_else_field id p d :
  or_else (optional_value id p) (JStr d)
  = JStr (match field_text id p with [] => d | _ :: _ => field_text id p end).
Proof.
  unfold or_else, optional_value, field_text.
  destruct (getElementById id p) as [c|]; [|destruct d; reflexivity].
  destruct (ctl_value c); reflexivity.
Qed.

Lemma or_else_field_empty id p :
  or_else (optional_value id p) (JStr []) = JStr (field_text id p).
Proof. rewrite or_else_field. destruct (field_text id p); reflexivity. Qed.

Lemma parse_empty : JSON.parse [] = None.
Proof. reflexivity. Qed.

Lemma parse_empty_array : JSON.parse (lit "[]") = Some (JArr []).
Proof. reflexivity. Qed.

(** The four outcomes of [buildValidationCriteria], by selected type. *)
Lemma build_none p :
  validationTypeSelector p = lit "none" \/ validationTypeSelector p = [] ->
  buildValidationCriteria p = ([], JNull).
Proof.
  unfold buildValidationCriteria. intros [-> | ->]; reflexivity.
Qed.

Lemma build_expected p :
  validationTypeSelector p = lit "exact_match"
  \/ validationTypeSelector p = lit "contains" ->
  buildValidationCriteria p =
  ([], JObj [(lit "type", JStr (validationTypeSelector p));
             (lit "expected", JStr (field_text "expectedOutput" p))]).
Proof.
  unfold buildValidationCriteria.
  intros [E | E]; rewrite E; cbn [is_literal]; rewrite or_else_field_empty;
    reflexivity.
Qed.

Lemma build_function_call p :
  validationTypeSelector p = lit "function_call" ->
  buildValidationCriteria p =
  (match JSON.parse (field_text "functionArgs" p), field_text "functionArgs" p with
   | Some _, _ => []
   | None, [] => []
   | None, _ :: _ => invalid_arguments
   end,
   JObj [(lit "type", JStr (lit "function_call"));
         (lit "function_name", JStr (field_text "functionName" p));
         (lit "args", match JSON.parse (field_text "functionArgs" p) with
                      | Some args => args
                      | None => JArr []
                      end);
         (lit "expected", match JSON.parse (field_text "expectedOutput" p) with
                          | Some expected => expected
                          | None => JStr (field_text "expectedOutput" p)
                          end)]).
Proof.
  unfold buildValidationCriteria. intros ->.
  change (is_literal (JStr (lit "function_call")) "none") with false.
  change (truthy (JStr (lit "function_call"))) with true.
  change (is_literal (JStr (lit "function_call")) "exact_match") with false.
  change (is_literal (JStr (lit "function_call")) "contains") with false.
  change (is_literal (JStr (lit "function_call")) "function_call") with true.
  cbn [orb negb]. cbv iota.
  rewrite !or_else_field_empty, or_else_field. cbn [ToString].
  destruct (field_text "functionArgs" p) as [|a0 a] eqn:Ea.
  - rewrite parse_empty_array, parse_empty.
    destruct (JSON.parse (field_text "expectedOutput" p)); reflexivity.
  - destruct (JSON.parse (a0 :: a));
      destruct (JSON.parse (field_text "expectedOutput" p)); reflexivity.
Qed.

Lemma build_other p :
  let t := validationTypeSelector p in
  t <> lit "none" -> t <> [] -> t <> lit "exact_match" -> t <> lit "contains" ->
  t <> lit "function_call" ->
  buildValidationCriteria p = ([], JObj [(lit "type", JStr t)]).
Proof.
  intros t H1 H2 H3 H4 H5. unfold buildValidationCriteria. fold t.
  cbn [is_literal]. rewrite truthy_JStr.
  apply jseqb_neq in H1, H2, H3, H4, H5.
  rewrite H1, H2, H3, H4, H5. reflexivity.
Qed.

(** The selected type is one of the five cases above. *)
Lemma selector_cases (t : jsstring) :
  (t = lit "none" \/ t = [])
  \/ (t = lit "exact_match" \/ t = lit "contains")
  \/ t = lit "function_call"
  \/ (t <> lit "none" /\ t <> [] /\ t <> lit "exact_match" /\ t <> lit "contains"
      /\ t <> lit "function_call").
Proof.
  destruct (jseqb t (lit "none")) eqn:E1; [apply jseqb_eq in E1; tauto|].
  destruct (jseqb t []) eqn:E2; [apply jseqb_eq in E2; tauto|].
  destruct (jseqb t (lit "exact_match")) eqn:E3; [apply jseqb_eq in E3; tauto|].
  destruct (jseqb t (lit "contains")) eqn:E4; [apply jseqb_eq in E4; tauto|].
  destruct (jseqb t (lit "function_call")) eqn:E5; [apply jseqb_eq in E5; tauto|].
  apply jseqb_neq in E1, E2, E3, E4, E5. tauto.
Qed.

End Build.

(** C3. [buildValidationCriteria] returns [null] exactly when the selected
    type is [none] or empty, and what it returns never has the type
    [none]. *)
Theorem build_null_iff (p : page) :
  (snd (buildValidationCriteria p) = JNull
   <-> validationTypeSelector p = lit "none" \/ validationTypeSelector p = [])
  /\ get (snd (buildValidationCriteria p)) "type" <> JStr (lit "none").
Proof.
  destruct (selector_cases (validationTypeSelector p))
    as [H | [H | [H | (H1 & H2 & H3 & H4 & H5)]]].
  - rewrite (build_none p H). simpl. split; [tauto | discriminate].
  - rewrite (build_expected p H). simpl. split.
    + split; [discriminate|]. destruct H as [E | E]; rewrite E; intros [?|?]; discriminate.
    + destruct H as [E | E]; rewrite E; discriminate.
  - rewrite (build_function_call p H). simpl. split.
    + split; [discriminate|]. rewrite H. intros [?|?]; discriminate.
    + discriminate.
  - rewrite (build_other p H1 H2 H3 H4 H5). simpl. split.
    + split; [discriminate | tauto].
    + congruence.
Qed.

(** C4, as the specification words it, fails: once a criteria of a type
    outside the enumeration, here [regex], has been populated, the selector
    holds that type and the handler returns the object [{type: "regex"}]. *)
Lemma build_type_not_enumerated :
  ~ (forall p ps,
       snd (buildValidationCriteria p) = JObj ps ->
       enumerated_type (get (JObj ps) "type")).
Proof.
  intros H.
  specialize (H (populateValidationFields
                   (JObj [(lit "type", JStr (lit "regex"))])
                   {| validationTypeSelector := lit "none";
                      validationFieldsContainer := [] |})
                [(lit "type", JStr (lit "regex"))] eq_refl).
  destruct H as [H | [H | [H | H]]]; discriminate H.
Qed.

(** C4, amended. The type of a criteria object is the selector's value,
    which is neither empty nor [none]; a value outside the three types with
    fields gives an object that carries its type and nothing else. *)
Theorem build_type_is_selector (p : page) (ps : list (jsstring * value)) :
  snd (buildValidationCriteria p) = JObj ps ->
  let t := validationTypeSelector p in
  get (JObj ps) "type" = JStr t
  /\ t <> [] /\ t <> lit "none"
  /\ (t <> lit "exact_match" -> t <> lit "contains" -> t <> lit "function_call" ->
      ps = [(lit "type", JStr t)]).
Proof.
  intros E t. subst t.
  destruct (selector_cases (validationTypeSelector p))
    as [H | [H | [H | (H1 & H2 & H3 & H4 & H5)]]].
  - rewrite (build_none p H) in E. discriminate E.
  - rewrite (build_expected p H) in E. injection E as <-.
    destruct H as [H | H]; rewrite H; repeat split; try discriminate; congruence.
  - rewrite (build_function_call p H) in E. injection E as <-.
    rewrite H; repeat split; try discriminate; congruence.
  - rewrite (build_other p H1 H2 H3 H4 H5) in E. injection E as <-.
    repeat split; auto.
Qed.

Lemma build_type_is_selector_witness :
  get (JObj [(lit "type", JStr (lit "regex"))]) "type" = JStr (lit "regex")
  /\ lit "regex" <> [] /\ lit "regex" <> lit "none"
  /\ (lit "regex" <> lit "exact_match" -> lit "regex" <> lit "contains" ->
      lit "regex" <> lit "function_call" ->
      [(lit "type", JStr (lit "regex"))] = [(lit "type", JStr (lit "regex"))]).
Proof.
  exact (build_type_is_selector
           {| validationTypeSelector := lit "regex";
              validationFieldsContainer := fieldTemplates.expected |}
           [(lit "type", JStr (lit "regex"))] eq_refl).
Defined.

(** C2, as the specification words it, fails: an empty arguments field is
    not valid JSON, and the handler reads it as [[]] without any
    notification. *)
Lemma build_empty_arguments_silent :
  ~ (forall p,
       validationTypeSelector p = lit "function_call" ->
       JSON.parse (field_text "functionArgs" p) = None ->
       In (alert "The 'Arguments' field contains invalid JSON. Please correct it.")
          (fst (buildValidationCriteria p))).
Proof.
  intros H.
  specialize (H (handleValidationChange
                   {| validationTypeSelector := lit "function_call";
                      validationFieldsContainer := [] |})
                eq_refl eq_refl).
  vm_compute in H. exact H.
Qed.

(** C2, amended. With [function_call] selected and a non-empty arguments
    field that is not valid JSON, the handler notifies the operator, sets
    [args] to the empty array and still returns an object; an empty or
    absent arguments field is read as [[]] and notifies nobody. *)
Theorem build_invalid_arguments (p : page) :
  validationTypeSelector p = lit "function_call" ->
  (field_text "functionArgs" p <> [] ->
   JSON.parse (field_text "functionArgs" p) = None ->
   In (alert "The 'Arguments' field contains invalid JSON. Please correct it.")
      (fst (buildValidationCriteria p))
   /\ get (snd (buildValidationCriteria p)) "args" = JArr []
   /\ snd (buildValidationCriteria p) <> JNull
   /\ get (snd (buildValidationCriteria p)) "type" = JStr (lit "function_call"))
  /\ (field_text "functionArgs" p = [] ->
      fst (buildValidationCriteria p) = []
      /\ get (snd (buildValidationCriteria p)) "args" = JArr []
      /\ snd (buildValidationCriteria p) <> JNull).
Proof.
  intros Ht. rewrite (build_function_call p Ht). split.
  - intros Hne Hp. rewrite Hp.
    destruct (field_text "functionArgs" p); [congruence|].
    split; [simpl; auto|]. split; [reflexivity|]. split; [discriminate|reflexivity].
  - intros ->. rewrite parse_empty.
    split; [reflexivity|]. split; [reflexivity|discriminate].
Qed.

Lemma build_invalid_arguments_witness :
  In (alert "The 'Arguments' field contains invalid JSON. Please correct it.")
     (fst (buildValidationCriteria
             (function_call_page (lit "f") (lit "not json") (lit "1"))))
  /\ get (snd (buildValidationCriteria
                 (function_call_page (lit "f") (lit "not json") (lit "1"))))
         "args" = JArr []
  /\ snd (buildValidationCriteria
            (function_call_page (lit "f") (lit "not json") (lit "1"))) <> JNull
  /\ get (snd (buildValidationCriteria
                 (function_call_page (lit "f") (lit "not json") (lit "1"))))
         "type" = JStr (lit "function_call").
Proof.
  apply (proj1 (build_invalid_arguments
                  (function_call_page (lit "f") (lit "not json") (lit "1"))
                  eq_refl)).
  - discriminate.
  - reflexivity.
Defined.

(** C6. With [function_call] selected, the function name is the field's
    text, [args] is the arguments field parsed as JSON, and [expected] is
    the expected field parsed as JSON or, when that fails, its text, without
    any notification; scenario B gives the object of the specification. *)
Theorem build_function_call_fields :
  (forall p,
     validationTypeSelector p = lit "function_call" ->
     let r := snd (buildValidationCriteria p) in
     get r "type" = JStr (lit "function_call")
     /\ get r "function_name" = JStr (field_text "functionName" p)
     /\ (forall args, JSON.parse (field_text "functionArgs" p) = Some args ->
                      get r "args" = args /\ fst (buildValidationCriteria p) = [])
     /\ get r "expected" =
        match JSON.parse (field_text "expectedOutput" p) with
        | Some expected => expected
        | None => JStr (field_text "expectedOutput" p)
        end)
  /\ buildValidationCriteria
       (function_call_page (lit "add_numbers") (lit "[2, 3]") (lit "5"))
     = ([], JObj [(lit "type", JStr (lit "function_call"));
                  (lit "function_name", JStr (lit "add_numbers"));
                  (lit "args", JArr [JNum (Dec false [2] 1); JNum (Dec false [3] 1)]);
                  (lit "expected", JNum (Dec false [5] 1))]).
Proof.
  split; [|reflexivity].
  intros p Ht r. subst r. rewrite (build_function_call p Ht).
  repeat split; simpl; try reflexivity.
  - now rewrite H.
  - now rewrite H.
Qed.

Lemma build_function_call_fields_witness :
  get (snd (buildValidationCriteria
              (function_call_page (lit "add_numbers") (lit "[2, 3]") (lit "hello"))))
      "function_name" = JStr (lit "add_numbers")
  /\ get (snd (buildValidationCriteria
                 (function_call_page (lit "add_numbers") (lit "[2, 3]") (lit "hello"))))
         "args" = JArr [JNum (Dec false [2] 1); JNum (Dec false [3] 1)]
  /\ get (snd (buildValidationCriteria
                 (function_call_page (lit "add_numbers") (lit "[2, 3]") (lit "hello"))))
         "expected" = JStr (lit "hello")
  /\ fst (buildValidationCriteria
            (function_call_page (lit "add_numbers") (lit "[2, 3]") (lit "hello"))) = [].
Proof.
  pose proof (proj1 build_function_call_fields
                (function_call_page (lit "add_numbers") (lit "[2, 3]") (lit "hello"))
                eq_refl) as (_ & Hn & Ha & He).
  destruct (Ha (JArr [JNum (Dec false [2] 1); JNum (Dec false [3] 1)]) eq_refl)
    as [Ha1 Ha2].
  repeat split; assumption.
Defined.

(* ------------------------------------------------------------------ *)
(** ** Line breaks, and the text of a JSON value *)

Section LineBreaks.

Lemma strip_newlines_plain s : has_line_break s = false -> strip_newlines s = s.
Proof.
  unfold has_line_break, strip_newlines.
  induction s as [|c s IH]; simpl; [reflexivity|].
  rewrite orb_false_iff. intros [Hc Hs]. rewrite Hc. simpl. now rewrite IH.
Qed.

Lemma normalize_newlines_plain s :
  has_carriage_return s = false -> normalize_newlines s = s.
Proof.
  unfold has_carriage_return.
  induction s as [|c s IH]; simpl; [reflexivity|].
  rewrite orb_false_iff. intros [Hc Hs]. rewrite Hc. now rewrite IH.
Qed.

Lemma printable_plain s : Forall (fun c => 32 <= c) s -> has_line_break s = false.
Proof.
  unfold has_line_break. induction 1 as [|c s Hc _ IH]; simpl; [reflexivity|].
  rewrite IH, orb_false_r. apply orb_false_iff. split; apply N.eqb_neq; lia.
Qed.

End LineBreaks.

Module Printable.
Import JSON.

Local Notation "'printable'" := (Forall (fun c : N => 32 <= c)) (at level 0).

Lemma printable_lit_check s :
  forallb (fun c => 32 <=? c) s = true -> printable s.
Proof.
  intros H. apply Forall_forall. intros c Hc.
  rewrite forallb_forall in H. now apply N.leb_le, H.
Qed.

Lemma printable_digits_text ds : printable (digits_text ds).
Proof. induction ds; simpl; constructor; [lia | assumption]. Qed.

Lemma printable_zeros k : printable (zeros k).
Proof. induction k; simpl; constructor; [lia | assumption]. Qed.

Lemma printable_decimal_text m : printable (decimal_text m).
Proof.
  unfold decimal_text. induction (N.to_uint m); simpl; constructor;
    (lia || assumption).
Qed.

Lemma printable_digits_notation s n : printable (digits_notation s n).
Proof.
  unfold digits_notation.
  repeat match goal with
         | |- printable (if ?b then _ else _) => destruct b
         | |- printable (match ?l with _ => _ end) => destruct l
         | |- printable (_ ++ _) => apply Forall_app; split
         | |- printable (digits_text _) => apply printable_digits_text
         | |- printable (zeros _) => apply printable_zeros
         | |- printable (decimal_text _) => apply printable_decimal_text
         | |- printable (lit _) => apply printable_lit_check; reflexivity
         end.
Qed.

Lemma printable_Number_toString x : printable (Number_toString x).
Proof.
  destruct x as [|neg s n]; simpl.
  - apply printable_lit_check. reflexivity.
  - apply Forall_app. split; [|apply printable_digits_notation].
    destruct neg; [apply printable_lit_check; reflexivity | constructor].
Qed.

Lemma hex_unit_printable d : 32 <= hex_unit d.
Proof. unfold hex_unit. destruct (d <? 10); lia. Qed.

Lemma printable_UnicodeEscape c : printable (UnicodeEscape c).
Proof.
  unfold UnicodeEscape. repeat constructor; try lia; apply hex_unit_printable.
Qed.

Lemma printable_quote_unit c : printable (quote_unit c).
Proof.
  unfold quote_unit.
  repeat match goal with
         | |- printable (if ?a =? ?b then _ else _) => destruct (a =? b)
         | |- printable (if ?a <? ?b then _ else _) => destruct (N.ltb_spec a b)
         end;
    try apply printable_UnicodeEscape; repeat constructor; lia.
Qed.

Lemma printable_quote_units s : printable (quote_units s).
Proof.
  remember (length s) as n eqn:Hn.
  assert (Hlen : (length s <= n)%nat) by lia. clear Hn.
  revert s Hlen. induction n as [|n IH]; intros s Hlen.
  - destruct s; [constructor | simpl in Hlen; lia].
  - destruct s as [|c r]; [constructor|]. simpl in Hlen. cbn [quote_units].
    destruct (is_high_surrogate c) eqn:Hh.
    + unfold is_high_surrogate in Hh. apply andb_true_iff in Hh as [Hh _].
      apply N.leb_le in Hh.
      destruct r as [|d r']; [apply printable_UnicodeEscape|].
      destruct (is_low_surrogate d) eqn:Hl.
      * unfold is_low_surrogate in Hl. apply andb_true_iff in Hl as [Hl _].
        apply N.leb_le in Hl. simpl in Hlen.
        constructor; [lia|]. constructor; [lia|]. apply IH. lia.
      * apply Forall_app. split; [apply printable_UnicodeEscape | apply IH; lia].
    + destruct (is_low_surrogate c).
      * apply Forall_app. split; [apply printable_UnicodeEscape | apply IH; lia].
      * apply Forall_app. split; [apply printable_quote_unit | apply IH; lia].
Qed.

Lemma printable_QuoteJSONString s : printable (QuoteJSONString s).
Proof.
  unfold QuoteJSONString. constructor; [lia|].
  apply Forall_app. split; [apply printable_quote_units | repeat constructor; lia].
Qed.

Lemma printable_join parts :
  Forall printable parts -> printable (join (lit ",") parts).
Proof.
  induction 1 as [|p parts Hp Hparts IH]; [constructor|].
  destruct parts as [|p' parts']; [exact Hp|].
  change (join (lit ",") (p :: p' :: parts'))
    with (p ++ lit "," ++ join (lit ",") (p' :: parts')).
  apply Forall_app. split; [exact Hp|].
  apply Forall_app. split; [apply printable_lit_check; reflexivity | exact IH].
Qed.

(** The text [JSON.stringify] writes holds no control character, so no line
    break. *)
Lemma printable_text_of v : printable (text_of v).
Proof.
  induction v as [| |b|x|s|l IH|ps IH] using value_induction;
    unfold text_of; cbn [SerializeJSONProperty].
  - apply printable_lit_check. reflexivity.
  - apply printable_lit_check. reflexivity.
  - destruct b; apply printable_lit_check; reflexivity.
  - apply printable_Number_toString.
  - apply printable_QuoteJSONString.
  - change (map _ l) with (map text_of l).
    apply Forall_app. split; [apply printable_lit_check; reflexivity|].
    apply Forall_app. split; [|apply printable_lit_check; reflexivity].
    apply printable_join. induction IH as [|e l He _ IHl]; [constructor|].
    cbn [map]. constructor; assumption.
  - apply Forall_app. split; [apply printable_lit_check; reflexivity|].
    apply Forall_app. split; [|apply printable_lit_check; reflexivity].
    apply printable_join. induction IH as [|kv ps' Hkv _ IHps]; [constructor|].
    cbn [flat_map]. unfold text_of in Hkv.
    destruct (SerializeJSONProperty (snd kv)) as [te|]; [|exact IHps].
    cbn [app]. constructor; [|exact IHps].
    apply Forall_app. split; [apply printable_QuoteJSONString|].
    apply Forall_app. split; [apply printable_lit_check; reflexivity | exact Hkv].
Qed.

End Printable.


Lemma strip_newlines_text_of v : strip_newlines (text_of v) = text_of v.
Proof.
  apply strip_newlines_plain, printable_plain, Printable.printable_text_of.
Qed.

Lemma plain_string s test :
  string_without test (JStr s) = true -> test s = false.
Proof. simpl. now destruct (test s). Qed.

(* ------------------------------------------------------------------ *)
(** ** Populating the form from a criteria object *)

Section Populate.

(** A criteria whose [type] is a string literal is an object, hence truthy. *)
Lemma typed_truthy c t : get c "type" = JStr t -> truthy c = true.
Proof. destruct c; simpl; try discriminate; reflexivity. Qed.

Lemma populate_function_call c p :
  get c "type" = JStr (lit "function_call") ->
  populateValidationFields c p =
  function_call_page
    (strip_newlines (DOMString_of (or_else (get c "function_name") (JStr []))))
    (strip_newlines
       (DOMString_of (JSON.stringify (or_else (get c "args") (JArr [])))))
    (strip_newlines
       (DOMString_of (if negb (typeof_string (get c "expected"))
                      then JSON.stringify (get c "expected")
                      else get c "expected"))).
Proof.
  intros Ht. unfold populateValidationFields.
  rewrite Ht, (typed_truthy c _ Ht). reflexivity.
Qed.

Lemma populate_expected c p t :
  t = lit "exact_match" \/ t = lit "contains" ->
  get c "type" = JStr t ->
  populateValidationFields c p =
  {| validationTypeSelector := t;
     validationFieldsContainer :=
       [ {| ctl_tag := textarea; ctl_id := "expectedOutput";
            ctl_value :=
              normalize_newlines
                (DOMString_of (or_else (get c "expected") (JStr []))) |} ] |}.
Proof.
  intros Hcase Ht. unfold populateValidationFields.
  rewrite Ht, (typed_truthy c _ Ht).
  destruct Hcase as [-> | ->]; reflexivity.
Qed.

Lemma populate_nothing c p :
  truthy c = false ->
  populateValidationFields c p =
  {| validationTypeSelector := lit "none"; validationFieldsContainer := [] |}.
Proof.
  intros Hc. unfold populateValidationFields. rewrite Hc. reflexivity.
Qed.

End Populate.

(** C9. Populating with no criteria selects [none], leaves no field, and
    [buildValidationCriteria] then returns [null]. *)
Theorem populate_null_build (p : page) :
  populateValidationFields JNull p
    = {| validationTypeSelector := lit "none"; validationFieldsContainer := [] |}
  /\ populateValidationFields JUndefined p = populateValidationFields JNull p
  /\ buildValidationCriteria (populateValidationFields JNull p) = ([], JNull).
Proof.
  rewrite !populate_nothing by reflexivity. repeat split.
Qed.






Section RoundTrip.

Lemma or_else_JStr s : or_else (JStr s) (JStr []) = JStr s.
Proof. destruct s; reflexivity. Qed.

Lemma stringify_json v : is_json v = true -> JSON.stringify v = JStr (text_of v).
Proof. intros H. apply parse_stringify, H. Qed.

Lemma parse_text_of v : is_json v = true -> JSON.parse (text_of v) = Some v.
Proof. intros H. apply parse_stringify, H. Qed.

(** What the expected field of a [function_call] criteria is read back as. *)
Lemma expected_read_back e :
  is_json e = true ->
  string_without has_line_break e = true ->
  same_expected e
    (let shown :=
       strip_newlines
         (DOMString_of (if negb (typeof_string e) then JSON.stringify e else e)) in
     match JSON.parse shown with
     | Some expected => expected
     | None => JStr shown
     end).
Proof.
  intros He Hplain. destruct (typeof_string e) eqn:Ety.
  - destruct e; try discriminate. cbn [negb DOMString_of ToString].
    rewrite (strip_newlines_plain _ (plain_string _ _ Hplain)).
    destruct (JSON.parse s) as [v|] eqn:Ep.
    + right. now exists s.
    + now left.
  - cbn [negb]. rewrite (stringify_json e He). cbn [DOMString_of ToString].
    rewrite strip_newlines_text_of, (parse_text_of e He). now left.
Qed.

End RoundTrip.

(** C1, as the specification words it, fails on values with line breaks:
    the function name and a string expected value of a [function_call] pass
    through single-line text inputs and come back without their carriage
    returns and line feeds; the expected value of an [exact_match] passes
    through a text area and comes back with its carriage return turned into
    a line feed. *)
Lemma round_trip_loses_line_breaks :
  ~ (forall c p,
       valid_criteria c ->
       get (snd (buildValidationCriteria (populateValidationFields c p)))
           "function_name" = get c "function_name")
  /\ ~ (forall c p,
          valid_criteria c ->
          get c "type" <> JStr (lit "function_call") ->
          same_expected (get c "expected")
            (get (snd (buildValidationCriteria (populateValidationFields c p)))
                 "expected"))
  /\ ~ (forall c p,
          valid_criteria c ->
          get c "type" = JStr (lit "function_call") ->
          same_expected (get c "expected")
            (get (snd (buildValidationCriteria (populateValidationFields c p)))
                 "expected")).
Proof.
  split; [|split]; intros H.
  - specialize (H (JObj [(lit "type", JStr (lit "function_call"));
                         (lit "function_name", JStr (lit "a" ++ [10] ++ lit "b"));
                         (lit "args", JArr []);
                         (lit "expected", JStr (lit "x"))])
                  {| validationTypeSelector := lit "none";
                     validationFieldsContainer := [] |}).
    assert (Hv : valid_criteria
                   (JObj [(lit "type", JStr (lit "function_call"));
                          (lit "function_name", JStr (lit "a" ++ [10] ++ lit "b"));
                          (lit "args", JArr []);
                          (lit "expected", JStr (lit "x"))])).
    { right. split; [reflexivity|]. split; [eexists; reflexivity|].
      split; [eexists; split; reflexivity | reflexivity]. }
    specialize (H Hv). vm_compute in H. discriminate H.
  - specialize (H (JObj [(lit "type", JStr (lit "exact_match"));
                         (lit "expected", JStr (lit "a" ++ [13] ++ lit "b"))])
                  {| validationTypeSelector := lit "none";
                     validationFieldsContainer := [] |}).
    assert (Hv : valid_criteria
                   (JObj [(lit "type", JStr (lit "exact_match"));
                          (lit "expected", JStr (lit "a" ++ [13] ++ lit "b"))])).
    { left. split; [now left | eexists; reflexivity]. }
    specialize (H Hv). destruct H as [H | (s & Hs & Hp)]; [discriminate| |].
    + vm_compute in H. discriminate H.
    + injection Hs as <-. vm_compute in Hp. discriminate Hp.
  - specialize (H (JObj [(lit "type", JStr (lit "function_call"));
                         (lit "function_name", JStr (lit "f"));
                         (lit "args", JArr []);
                         (lit "expected", JStr (lit "x" ++ [13; 10] ++ lit "y"))])
                  {| validationTypeSelector := lit "none";
                     validationFieldsContainer := [] |}).
    assert (Hv : valid_criteria
                   (JObj [(lit "type", JStr (lit "function_call"));
                          (lit "function_name", JStr (lit "f"));
                          (lit "args", JArr []);
                          (lit "expected", JStr (lit "x" ++ [13; 10] ++ lit "y"))])).
    { right. split; [reflexivity|]. split; [eexists; reflexivity|].
      split; [eexists; split; reflexivity | reflexivity]. }
    specialize (H Hv eq_refl). destruct H as [H | (s & Hs & Hp)].
    + vm_compute in H. discriminate H.
    + injection Hs as <-. vm_compute in Hp. discriminate Hp.
Qed.

(** C1, amended. Populating the form with a valid criteria object whose
    strings hold no line break that their control does not keep
    ([plain_strings]) and building from it gives back an object with the
    same type and the same field values, the expected value of a
    [function_call] up to [same_expected], and notifies nobody. *)
Theorem build_populate_round_trip (c : value) (p : page) :
  valid_criteria c ->
  plain_strings c = true ->
  let r := buildValidationCriteria (populateValidationFields c p) in
  fst r = []
  /\ get (snd r) "type" = get c "type"
  /\ (get c "type" <> JStr (lit "function_call") ->
      snd r = JObj [(lit "type", get c "type"); (lit "expected", get c "expected")])
  /\ (get c "type" = JStr (lit "function_call") ->
      exists expected,
        snd r = JObj [(lit "type", get c "type");
                      (lit "function_name", get c "function_name");
                      (lit "args", get c "args");
                      (lit "expected", expected)]
        /\ same_expected (get c "expected") expected).
Proof.
  intros [[Ht [s Hs]] | (Ht & [f Hf] & [l [Hl Hjl]] & Hje)] Hplain r; subst r;
    unfold plain_strings in Hplain.
  - assert (Hcase : exists t, (t = lit "exact_match" \/ t = lit "contains")
                              /\ get c "type" = JStr t)
      by (destruct Ht as [Ht | Ht];
          [exists (lit "exact_match") | exists (lit "contains")]; tauto).
    destruct Hcase as (t & Hcase & Ht').
    assert (Hcr : has_carriage_return s = false).
    { rewrite Ht', Hs in Hplain. apply plain_string.
      destruct Hcase as [-> | ->]; exact Hplain. }
    rewrite (populate_expected c p t Hcase Ht'), Hs, or_else_JStr.
    cbn [DOMString_of ToString]. rewrite (normalize_newlines_plain s Hcr).
    rewrite build_expected by exact Hcase.
    rewrite Ht'. cbn [fst snd].
    split; [reflexivity|]. split; [reflexivity|]. split; [reflexivity|].
    intros E. exfalso. destruct Hcase as [-> | ->]; discriminate E.
  - rewrite Ht, Hf in Hplain. cbn [is_literal] in Hplain.
    change (jseqb (lit "function_call") (lit "function_call")) with true in Hplain. apply andb_true_iff in Hplain as [Hpf Hpe].
    rewrite (populate_function_call c p Ht), Hf, Hl, or_else_JStr.
    change (or_else (JArr l) (JArr [])) with (JArr l).
    rewrite (stringify_json _ Hjl). cbn [DOMString_of ToString].
    rewrite (strip_newlines_plain f (plain_string _ _ Hpf)), strip_newlines_text_of.
    rewrite build_function_call by reflexivity.
    change (field_text "functionName" (function_call_page ?n ?a ?e)) with n.
    change (field_text "functionArgs" (function_call_page ?n ?a ?e)) with a.
    change (field_text "expectedOutput" (function_call_page ?n ?a ?e)) with e.
    rewrite (parse_text_of _ Hjl), Ht. cbn [fst snd].
    split; [reflexivity|]. split; [reflexivity|]. split; [congruence|].
    intros _. eexists. split; [reflexivity|].
    apply (expected_read_back _ Hje Hpe).
Qed.

Lemma build_populate_round_trip_witness :
  exists expected,
    snd (buildValidationCriteria
           (populateValidationFields
              (JObj [(lit "type", JStr (lit "function_call"));
                     (lit "function_name", JStr (lit "add_numbers"));
                     (lit "args", JArr [JNum (Dec false [2] 1); JStr (lit "a b");
                                        JObj [(lit "k", JArr [JBool true; JNull])]]);
                     (lit "expected", JStr (lit "5"))])
              {| validationTypeSelector := lit "contains";
                 validationFieldsContainer := fieldTemplates.expected |}))
    = JObj [(lit "type", JStr (lit "function_call"));
            (lit "function_name", JStr (lit "add_numbers"));
            (lit "args", JArr [JNum (Dec false [2] 1); JStr (lit "a b");
                               JObj [(lit "k", JArr [JBool true; JNull])]]);
            (lit "expected", expected)]
    /\ same_expected (JStr (lit "5")) expected.
Proof.
  refine (proj2 (proj2 (proj2
    (build_populate_round_trip
       (JObj [(lit "type", JStr (lit "function_call"));
              (lit "function_name", JStr (lit "add_numbers"));
              (lit "args", JArr [JNum (Dec false [2] 1); JStr (lit "a b");
                                 JObj [(lit "k", JArr [JBool true; JNull])]]);
              (lit "expected", JStr (lit "5"))])
       {| validationTypeSelector := lit "contains";
          validationFieldsContainer := fieldTemplates.expected |}
       _ eq_refl))) eq_refl).
  right. repeat split.
  - eexists. reflexivity.
  - eexists. split; reflexivity.
Defined.

(* ------------------------------------------------------------------ *)
(** ** Further properties of the handlers *)

Section Further.

Lemma build_null_selector p :
  snd (buildValidationCriteria p) = JNull
  <-> validationTypeSelector p = lit "none" \/ validationTypeSelector p = [].
Proof.
  destruct (selector_cases (validationTypeSelector p))
    as [H | [H | [H | (H1 & H2 & H3 & H4 & H5)]]].
  - rewrite (build_none p H). simpl. tauto.
  - rewrite (build_expected p H). simpl. split; [discriminate|].
    destruct H as [E | E]; rewrite E; intros [? | ?]; discriminate.
  - rewrite (build_function_call p H). simpl. split; [discriminate|].
    rewrite H. intros [? | ?]; discriminate.
  - rewrite (build_other p H1 H2 H3 H4 H5). simpl. split; [discriminate | tauto].
Qed.

Lemma render_after_select s p :
  handleValidationChange (set_selector s p) =
  {| validationTypeSelector := s;
     validationFieldsContainer :=
       if jseqb s (lit "exact_match") || jseqb s (lit "contains")
       then fieldTemplates.expected
       else if jseqb s (lit "function_call") then fieldTemplates.function_call
       else [] |}.
Proof. now rewrite render_cases. Qed.

Lemma assign_first_ids id s cs : map ctl_id (assign_first id s cs) = map ctl_id cs.
Proof.
  induction cs as [|c cs IH]; simpl; [reflexivity|].
  destruct (String.eqb (ctl_id c) id); simpl; [reflexivity | now rewrite IH].
Qed.

Lemma set_value_ids id v p :
  map ctl_id (validationFieldsContainer (set_value id v p))
  = map ctl_id (validationFieldsContainer p).
Proof. apply assign_first_ids. Qed.

(** A truthy value is not [null], so a control stores its [ToString]. *)
Lemma DOMString_of_or_else v :
  DOMString_of (or_else v (JStr [])) = if truthy v then ToString v else [].
Proof. unfold or_else. destruct v as [| |[|]|[|]|[|]| |]; reflexivity. Qed.

End Further.

(** X1. The handler notifies the operator exactly when [function_call] is
    selected and the arguments field is non-empty and not valid JSON; then
    it logs and alerts, in that order, and otherwise does neither. *)
Theorem build_notifies_iff (p : page) :
  (fst (buildValidationCriteria p) = invalid_arguments
   <-> validationTypeSelector p = lit "function_call"
       /\ field_text "functionArgs" p <> []
       /\ JSON.parse (field_text "functionArgs" p) = None)
  /\ (fst (buildValidationCriteria p) = invalid_arguments
      \/ fst (buildValidationCriteria p) = []).
Proof.
  destruct (selector_cases (validationTypeSelector p))
    as [H | [H | [H | (H1 & H2 & H3 & H4 & H5)]]].
  - rewrite (build_none p H). simpl. split; [|now right].
    split; [discriminate|]. intros (E & _). destruct H as [H | H];
      rewrite H in E; discriminate E.
  - rewrite (build_expected p H). simpl. split; [|now right].
    split; [discriminate|]. intros (E & _). destruct H as [H | H];
      rewrite H in E; discriminate E.
  - rewrite (build_function_call p H). cbn [fst].
    destruct (JSON.parse (field_text "functionArgs" p)) as [v|] eqn:Ep.
    + split; [|now right]. split; [discriminate|]. intros (_ & _ & E). discriminate E.
    + destruct (field_text "functionArgs" p) as [|a0 a].
      * split; [|now right]. split; [discriminate|]. intros (_ & E & _). congruence.
      * split; [|now left]. split; [|reflexivity]. intros _.
        repeat split; [exact H | discriminate].
  - rewrite (build_other p H1 H2 H3 H4 H5). simpl. split; [|now right].
    split; [discriminate|]. intros (E & _). congruence.
Qed.

(** X3. The handler reads the selector and the texts of the three fields
    and nothing else: two pages that agree on these build the same
    result, whatever else their containers hold. *)
Theorem build_reads_fields (p q : page) :
  validationTypeSelector p = validationTypeSelector q ->
  field_text "functionName" p = field_text "functionName" q ->
  field_text "functionArgs" p = field_text "functionArgs" q ->
  field_text "expectedOutput" p = field_text "expectedOutput" q ->
  buildValidationCriteria p = buildValidationCriteria q.
Proof.
  intros Hs Hn Ha He.
  destruct (selector_cases (validationTypeSelector p))
    as [H | [H | [H | (H1 & H2 & H3 & H4 & H5)]]].
  - rewrite (build_none p H). rewrite Hs in H. now rewrite (build_none q H).
  - rewrite (build_expected p H). rewrite Hs in H.
    now rewrite (build_expected q H), Hs, He.
  - rewrite (build_function_call p H). rewrite Hs in H.
    now rewrite (build_function_call q H), Hn, Ha, He.
  - rewrite (build_other p H1 H2 H3 H4 H5). rewrite Hs in H1, H2, H3, H4, H5.
    now rewrite (build_other q H1 H2 H3 H4 H5), Hs.
Qed.

Lemma build_reads_fields_witness :
  buildValidationCriteria
    {| validationTypeSelector := lit "function_call";
       validationFieldsContainer :=
         [ {| ctl_tag := textarea; ctl_id := "expectedOutput"; ctl_value := lit "5" |};
           {| ctl_tag := input_text; ctl_id := "other"; ctl_value := lit "x" |};
           {| ctl_tag := textarea; ctl_id := "functionArgs"; ctl_value := lit "[1]" |};
           {| ctl_tag := input_text; ctl_id := "functionName"; ctl_value := lit "f" |};
           {| ctl_tag := input_text; ctl_id := "functionName"; ctl_value := lit "g" |} ] |}
  = buildValidationCriteria (function_call_page (lit "f") (lit "[1]") (lit "5")).
Proof.
  exact (build_reads_fields _ (function_call_page (lit "f") (lit "[1]") (lit "5"))
           eq_refl eq_refl eq_refl eq_refl).
Defined.

(** X4. A form that has just been rendered builds the default criteria of
    its type, without any notification: [null] for [none] or no type, an
    empty expected string for [exact_match] and [contains], an empty name,
    no arguments and an empty expected string for [function_call], and the
    bare type for anything else. *)
Theorem build_after_render (p : page) :
  buildValidationCriteria (handleValidationChange p) =
  ([],
   let t := validationTypeSelector p in
   if jseqb t (lit "none") || jseqb t [] then JNull
   else if jseqb t (lit "exact_match") || jseqb t (lit "contains")
   then JObj [(lit "type", JStr t); (lit "expected", JStr [])]
   else if jseqb t (lit "function_call")
   then JObj [(lit "type", JStr t); (lit "function_name", JStr []);
              (lit "args", JArr []); (lit "expected", JStr [])]
   else JObj [(lit "type", JStr t)]).
Proof.
  cbv zeta. rewrite render_cases.
  destruct (selector_cases (validationTypeSelector p))
    as [H | [H | [H | (H1 & H2 & H3 & H4 & H5)]]].
  - rewrite build_none by exact H. destruct H as [-> | ->]; reflexivity.
  - rewrite build_expected by exact H.
    cbn [set_innerHTML validationTypeSelector].
    destruct H as [H | H]; rewrite H; reflexivity.
  - rewrite build_function_call by exact H.
    cbn [set_innerHTML validationTypeSelector]. rewrite H. reflexivity.
  - rewrite build_other by assumption.
    cbn [set_innerHTML validationTypeSelector].
    apply jseqb_neq in H1, H2, H3, H4, H5.
    now rewrite H1, H2, H3, H4, H5.
Qed.

Section FurtherPopulate.

Ltac written_fields :=
  repeat match goal with
         | |- context [match ?x with _ => _ end] => destruct x
         | |- context [set_value ?i ?v ?p] =>
             progress (rewrite ?(set_value_ids i v p);
                       cbn [set_value set_innerHTML validationTypeSelector])
         end.

(** Writing values into the rendered fields changes neither the selector
    nor the ids in the container. *)
Lemma populate_after_render c p :
  let rendered :=
    handleValidationChange
      (if negb (truthy c) || negb (truthy (get c "type"))
       then set_selector (lit "none") p
       else set_selector (ToString (get c "type")) p) in
  validationTypeSelector (populateValidationFields c p)
    = validationTypeSelector rendered
  /\ map ctl_id (validationFieldsContainer (populateValidationFields c p))
     = map ctl_id (validationFieldsContainer rendered).
Proof.
  intros rendered. unfold populateValidationFields. fold rendered.
  clearbody rendered. split; written_fields; reflexivity.
Qed.

(** The selector [populateValidationFields] leaves behind. *)
Lemma populate_selector c p :
  validationTypeSelector (populateValidationFields c p) =
  if negb (truthy c) || negb (truthy (get c "type"))
  then lit "none" else ToString (get c "type").
Proof.
  rewrite (proj1 (populate_after_render c p)), render_selector.
  destruct (negb (truthy c) || negb (truthy (get c "type"))); reflexivity.
Qed.

End FurtherPopulate.

(** X5. Populating, when it runs to completion, forgets the page it
    starts from: the selector and the fields it leaves depend on the
    criteria alone, so no value typed or populated earlier survives. *)
Theorem populate_forgets_page (c : value) (p q : page) :
  completes c = true ->
  populateValidationFields c p = populateValidationFields c q.
Proof.
  intros _. unfold populateValidationFields.
  destruct (negb (truthy c) || negb (truthy (get c "type")));
    rewrite !render_after_select; reflexivity.
Qed.

Lemma populate_forgets_page_witness :
  populateValidationFields
    (JObj [(lit "type", JStr (lit "contains")); (lit "expected", JStr (lit "needle"))])
    (function_call_page (lit "f") (lit "[1]") (lit "2"))
  = populateValidationFields
      (JObj [(lit "type", JStr (lit "contains")); (lit "expected", JStr (lit "needle"))])
      {| validationTypeSelector := lit "none"; validationFieldsContainer := [] |}.
Proof.
  exact (populate_forgets_page
           (JObj [(lit "type", JStr (lit "contains"));
                  (lit "expected", JStr (lit "needle"))])
           (function_call_page (lit "f") (lit "[1]") (lit "2"))
           {| validationTypeSelector := lit "none"; validationFieldsContainer := [] |}
           eq_refl).
Defined.


(** X7. When populating runs to completion, building right after it
    returns [null] exactly when the criteria is falsy, or its type is
    falsy, or the text of its type is [none] or empty; a criteria object
    without a type is dropped. *)
Theorem populate_build_null_iff (c : value) (p : page) :
  completes c = true ->
  (snd (buildValidationCriteria (populateValidationFields c p)) = JNull
   <-> truthy c = false \/ truthy (get c "type") = false
       \/ ToString (get c "type") = lit "none" \/ ToString (get c "type") = []).
Proof.
  intros _. rewrite build_null_selector, populate_selector.
  destruct (truthy c); destruct (truthy (get c "type")); cbn [negb orb].
  - split; [intros [H | H]; auto | intros [H | [H | H]]; auto; discriminate H].
  - split; [auto | intros _; now left].
  - split; [auto | intros _; now left].
  - split; [auto | intros _; now left].
Qed.

Lemma populate_build_null_iff_witness :
  snd (buildValidationCriteria
         (populateValidationFields
            (JObj [(lit "expected", JStr (lit "x"))])
            (function_call_page (lit "f") (lit "[1]") (lit "2")))) = JNull.
Proof.
  apply (proj2 (populate_build_null_iff
                  (JObj [(lit "expected", JStr (lit "x"))])
                  (function_call_page (lit "f") (lit "[1]") (lit "2"))
                  eq_refl)).
  right. left. reflexivity.
Defined.

(** X8. For [exact_match] and [contains], populating, when it runs to
    completion, and building turn the expected value into a string: its
    [ToString] as a text area shows it when it is truthy, the empty string
    when it is falsy or missing; the numbers [5] and [0] come back as the
    strings [5] and empty. *)
Theorem populate_build_expected_text (c : value) (p : page) (t : jsstring) :
  t = lit "exact_match" \/ t = lit "contains" ->
  get c "type" = JStr t ->
  completes c = true ->
  buildValidationCriteria (populateValidationFields c p) =
  ([], JObj [(lit "type", JStr t);
             (lit "expected",
              JStr (normalize_newlines
                      (if truthy (get c "expected")
                       then ToString (get c "expected") else [])))]).
Proof.
  intros Hcase Ht _.
  rewrite (populate_expected c p t Hcase Ht), DOMString_of_or_else.
  now rewrite build_expected.
Qed.

Lemma populate_build_expected_text_witness :
  buildValidationCriteria
    (populateValidationFields
       (JObj [(lit "type", JStr (lit "contains")); (lit "expected", JNum Zero)])
       {| validationTypeSelector := lit "none"; validationFieldsContainer := [] |})
  = ([], JObj [(lit "type", JStr (lit "contains")); (lit "expected", JStr [])]).
Proof.
  exact (populate_build_expected_text
           (JObj [(lit "type", JStr (lit "contains")); (lit "expected", JNum Zero)])
           {| validationTypeSelector := lit "none"; validationFieldsContainer := [] |}
           (lit "contains") (or_intror eq_refl) eq_refl eq_refl).
Defined.

(** X9. A [function_call] criteria with no name, no arguments and no
    expected value comes back from populating and building with an empty
    name, an empty argument list and the string [undefined] as expected
    value, without any notification. *)
Theorem populate_build_incomplete_call (c : value) (p : page) :
  get c "type" = JStr (lit "function_call") ->
  truthy (get c "function_name") = false ->
  truthy (get c "args") = false ->
  get c "expected" = JUndefined ->
  buildValidationCriteria (populateValidationFields c p) =
  ([], JObj [(lit "type", JStr (lit "function_call"));
             (lit "function_name", JStr []);
             (lit "args", JArr []);
             (lit "expected", JStr (lit "undefined"))]).
Proof.
  intros Ht Hf Ha He. rewrite (populate_function_call c p Ht).
  unfold or_else. rewrite Hf, Ha, He. reflexivity.
Qed.

Lemma populate_build_incomplete_call_witness :
  buildValidationCriteria
    (populateValidationFields
       (JObj [(lit "type", JStr (lit "function_call")); (lit "args", JNull)])
       {| validationTypeSelector := lit "none"; validationFieldsContainer := [] |})
  = ([], JObj [(lit "type", JStr (lit "function_call"));
               (lit "function_name", JStr []);
               (lit "args", JArr []);
               (lit "expected", JStr (lit "undefined"))]).
Proof.
  exact (populate_build_incomplete_call
           (JObj [(lit "type", JStr (lit "function_call")); (lit "args", JNull)])
           {| validationTypeSelector := lit "none"; validationFieldsContainer := [] |}
           eq_refl eq_refl eq_refl eq_refl).
Defined.

(** X10. For [exact_match] and [contains] the form survives the other
    round trip: building from a rendered form and populating any page with
    the result gives the form back with its text as a text area shows it,
    that is, unchanged for every text without carriage return, which are
    the texts a text area can show. *)
Theorem populate_build_form (t s : jsstring) (q : page) :
  t = lit "exact_match" \/ t = lit "contains" ->
  let form text :=
    {| validationTypeSelector := t;
       validationFieldsContainer :=
         [ {| ctl_tag := textarea; ctl_id := "expectedOutput"; ctl_value := text |} ] |} in
  populateValidationFields (snd (buildValidationCriteria (form s))) q
    = form (normalize_newlines s)
  /\ (has_carriage_return s = false ->
      populateValidationFields (snd (buildValidationCriteria (form s))) q = form s).
Proof.
  intros Hcase form. subst form. cbv beta.
  rewrite build_expected by exact Hcase.
  cbn [snd validationTypeSelector].
  rewrite (populate_expected _ q t Hcase) by reflexivity.
  change (get (JObj _) "expected") with (JStr s).
  rewrite or_else_JStr. cbn [DOMString_of ToString].
  split; [reflexivity|]. intros Hs. now rewrite normalize_newlines_plain.
Qed.

Lemma populate_build_form_witness :
  populateValidationFields
    (snd (buildValidationCriteria
            {| validationTypeSelector := lit "exact_match";
               validationFieldsContainer :=
                 [ {| ctl_tag := textarea; ctl_id := "expectedOutput";
                      ctl_value := lit "hello" ++ [10] ++ lit "world" |} ] |}))
    (function_call_page (lit "f") (lit "[1]") (lit "2"))
  = {| validationTypeSelector := lit "exact_match";
       validationFieldsContainer :=
         [ {| ctl_tag := textarea; ctl_id := "expectedOutput";
              ctl_value := lit "hello" ++ [10] ++ lit "world" |} ] |}.
Proof.
  exact (proj2 (populate_build_form (lit "exact_match")
                  (lit "hello" ++ [10] ++ lit "world")
                  (function_call_page (lit "f") (lit "[1]") (lit "2"))
                  (or_introl eq_refl))
               eq_refl).
Defined.

(** X12. A criteria whose type is a string outside the recognised ones
    selects that type, renders no field, and builds back as the bare type:
    every other field of the criteria is dropped. *)
Theorem populate_build_unrecognised (c : value) (p : page) (t : jsstring) :
  get c "type" = JStr t ->
  t <> lit "none" -> t <> [] -> t <> lit "exact_match" -> t <> lit "contains" ->
  t <> lit "function_call" ->
  populateValidationFields c p
    = {| validationTypeSelector := t; validationFieldsContainer := [] |}
  /\ buildValidationCriteria (populateValidationFields c p)
     = ([], JObj [(lit "type", JStr t)]).
Proof.
  intros Ht H1 H2 H3 H4 H5.
  assert (Hp : populateValidationFields c p
               = {| validationTypeSelector := t; validationFieldsContainer := [] |}).
  { unfold populateValidationFields.
    rewrite Ht, (typed_truthy c _ Ht), truthy_JStr.
    cbn [is_literal ToString].
    pose proof H2 as E2. pose proof H3 as E3. pose proof H4 as E4. pose proof H5 as E5.
    apply jseqb_neq in E2, E3, E4, E5. rewrite E2, E3, E4, E5.
    cbn [negb orb]. rewrite render_after_select, E3, E4, E5. reflexivity. }
  split; [exact Hp|]. rewrite Hp. now apply build_other.
Qed.

Lemma populate_build_unrecognised_witness :
  populateValidationFields
    (JObj [(lit "type", JStr (lit "regex")); (lit "expected", JStr (lit "a+"))])
    (function_call_page (lit "f") (lit "[1]") (lit "2"))
  = {| validationTypeSelector := lit "regex"; validationFieldsContainer := [] |}
  /\ buildValidationCriteria
       (populateValidationFields
          (JObj [(lit "type", JStr (lit "regex")); (lit "expected", JStr (lit "a+"))])
          (function_call_page (lit "f") (lit "[1]") (lit "2")))
     = ([], JObj [(lit "type", JStr (lit "regex"))]).
Proof.
  apply (populate_build_unrecognised
           (JObj [(lit "type", JStr (lit "regex")); (lit "expected", JStr (lit "a+"))])
           (function_call_page (lit "f") (lit "[1]") (lit "2"))
           (lit "regex") eq_refl); discriminate.
Defined.

(** X13. Values are written only for a criteria whose type is a string:
    when the type is anything else, say the array [["contains"]], and
    populating runs to completion, every field it leaves is empty. *)
Theorem populate_writes_string_type_only (c : value) (p : page) :
  typeof_string (get c "type") = false ->
  completes c = true ->
  Forall (fun f => ctl_value f = [])
         (validationFieldsContainer (populateValidationFields c p)).
Proof.
  intros Hty _.
  assert (Hl : forall s, is_literal (get c "type") s = false)
    by (intros s; destruct (get c "type"); try reflexivity; discriminate Hty).
  assert (Hp : populateValidationFields c p
               = handleValidationChange
                   (set_selector (if truthy c && truthy (get c "type")
                                  then ToString (get c "type") else lit "none") p)).
  { unfold populateValidationFields. rewrite !Hl. cbn [orb].
    destruct (truthy c); destruct (truthy (get c "type")); reflexivity. }
  rewrite Hp, render_after_select. cbn [validationFieldsContainer].
  destruct (jseqb _ (lit "exact_match") || jseqb _ (lit "contains")).
  - repeat constructor.
  - destruct (jseqb _ (lit "function_call")); repeat constructor.
Qed.

Lemma populate_writes_string_type_only_witness :
  Forall (fun f => ctl_value f = [])
    (validationFieldsContainer
       (populateValidationFields
          (JObj [(lit "type", JArr [JStr (lit "contains")]);
                 (lit "expected", JStr (lit "needle"))])
          (function_call_page (lit "f") (lit "[1]") (lit "2")))).
Proof.
  exact (populate_writes_string_type_only
           (JObj [(lit "type", JArr [JStr (lit "contains")]);
                  (lit "expected", JStr (lit "needle"))])
           (function_call_page (lit "f") (lit "[1]") (lit "2"))
           eq_refl eq_refl).
Defined.
